(** * DoH proxy worker: request routing and failover

    A shallow embedding of [workers.js]: the provider registry, the weighted
    selection of the primary upstream, the translation of the inbound request
    into the upstream request, and the sequential failover loop.

    The platform is modelled as follows.
    - Numbers are the kernel's binary64 floats: the sum of the weights, the
      product [Math.random() * totalWeight] and the running remainder round
      as in the source. [Math.random()] is an input [u] of [selectProvider];
      the integer weights of the registry are converted by [numberOf].
    - [fetch] is an oracle [net n req]: the answer of the network to the
      [n]-th upstream call issued while handling one inbound request. It
      either throws or responds.
    - The inbound request has arrived in full. [request.arrayBuffer()]
      follows the Fetch standard: a non-null body can be read once, a second
      read throws a TypeError; a null body reads as the empty buffer every
      time.
    - [Date.now()] is an input [now]; [toUTCString] is a platform function.
    - [new URL], [new Headers] and [new Request] are total: the inbound URL
      is given parsed and the provider URLs are valid.
    - [new Response(body, { status, ... })] throws a RangeError unless
      [200 <= status <= 599]; the status of an upstream answer is any
      integer. The other checks of the constructor pass on what [fetch]
      hands over (a valid status text, a null body with a null-body status)
      and are left out.
    - The handler runs in a small state-and-exception monad whose state holds
      the [bodyUsed] flag of the inbound request and a log of what the code
      did (provider selected, upstream call issued, failover entered, loop
      iteration started). *)

From Stdlib Require Import ZArith Lia Floats Ascii.
From stdpp Require Import gmap strings list fin_maps pretty.

Open Scope Z_scope.

(** ** Provider registry *)

Record Provider := mkProvider {
  name : string;
  url : string;
  weight : Z
}.

Definition DOH_PROVIDERS : list Provider := [
  mkProvider "Cloudflare" "https://cloudflare-dns.com/dns-query" 20;
  mkProvider "Google" "https://dns.google/dns-query" 15;
  mkProvider "Quad9" "https://dns.quad9.net/dns-query" 15;
  mkProvider "OpenDNS" "https://doh.opendns.com/dns-query" 10;
  mkProvider "AdGuard" "https://dns.adguard.com/dns-query" 10;
  mkProvider "ControlD" "https://freedns.controld.com/p2" 10;
  mkProvider "Mullvad" "https://adblock.dns.mullvad.net/dns-query" 10;
  mkProvider "NextDNS" "https://dns.nextdns.io/dns-query" 10
].

Definition CACHE_TTL : Z := 300.

(** ** Numbers *)

(** The Number value of an integer literal such as [weight: 20]: the
    binary64 value nearest to the integer, ties to even. *)
Definition numberOf (n : Z) : float :=
  SF2Prim (binary_normalize prec emax n 0 false).

(** ** Weighted selection *)

Module Select.

(** [providers.reduce((sum, provider) => sum + provider.weight, 0)] *)
Definition totalWeight (providers : list Provider) : float :=
  fold_left (fun sum provider => (sum + numberOf (weight provider))%float)
            providers 0%float.

(** The [for ... of] loop: [Some provider] when the [return] inside the loop
    is taken, [None] when the loop runs to its end. *)
Fixpoint selectLoop (providers : list Provider) (random : float) : option Provider :=
  match providers with
  | [] => None
  | provider :: rest =>
      if (random <? numberOf (weight provider))%float then Some provider
      else selectLoop rest (random - numberOf (weight provider))%float
  end.

(** Which [return] of [selectProvider] produced the result. *)
Inductive Selection :=
  | InLoop (provider : Provider)
  | FirstProvider (first : option Provider).

(** [selectProvider] with [u] the value of [Math.random()]; [providers[0]]
    of an empty array is [undefined], here [None]. *)
Definition selectProviderVia (providers : list Provider) (u : float) : Selection :=
  let total := totalWeight providers in
  let random := (u * total)%float in
  match selectLoop providers random with
  | Some provider => InLoop provider
  | None => FirstProvider (head providers)
  end.

Definition selectProvider (providers : list Provider) (u : float) : option Provider :=
  match selectProviderVia providers u with
  | InLoop provider => Some provider
  | FirstProvider first => first
  end.

(** The sum of the weights as integers. *)
Definition weightSum (providers : list Provider) : Z :=
  fold_left (fun sum provider => sum + weight provider) providers 0.

(** Sum of the weights of the providers before position [i]. *)
Definition weightBefore (providers : list Provider) (i : nat) : Z :=
  weightSum (take i providers).

(** The value of [random] when the loop reaches position [i]. *)
Definition remainderBefore (providers : list Provider) (random : float) (i : nat) : float :=
  fold_left (fun remainder provider => (remainder - numberOf (weight provider))%float)
            (take i providers) random.

End Select.

(** ** Binary64 values *)

(** The canonical exponent of the value [p * 2^e] in binary64. *)
Definition cexp (p : positive) (e : Z) : Z :=
  fexp prec emax (Zpos (digits2_pos p) + e).

(** The value of a finite double that is not negative, as a multiple of
    [2^-1074]. *)
Definition SFscaled (x : spec_float) : Z :=
  match x with
  | S754_finite false m e => Zpos m * 2 ^ (e + 1074)
  | _ => 0
  end.

Definition SFnonneg (x : spec_float) : bool :=
  match x with
  | S754_zero _ | S754_finite false _ _ => true
  | _ => false
  end.

(** [holds x v]: the double [x] is finite, not negative, and its value is
    [v / 2^1074]. *)
Definition holds (x : float) (v : Z) : Prop :=
  SFnonneg (Prim2SF x) = true /\ SFscaled (Prim2SF x) = v.

(** ** HTTP values *)

(** A [Headers] object: header names are case-insensitive and kept in lower
    case; [set] overwrites. *)
Abbreviation Headers := (gmap string string).

Definition lower_ascii (c : ascii) : ascii :=
  let n := N_of_ascii c in
  if ((65 <=? n) && (n <=? 90))%N then ascii_of_N (n + 32) else c.

Fixpoint lower (s : string) : string :=
  match s with
  | EmptyString => EmptyString
  | String c rest => String (lower_ascii c) (lower rest)
  end.

Definition headers_set (key value : string) (h : Headers) : Headers :=
  <[lower key := value]> h.

Definition headers_get (key : string) (h : Headers) : option string :=
  h !! lower key.

(** [new Headers({k1: v1, ...})] *)
Definition headers_of (init : list (string * string)) : Headers :=
  fold_left (fun h kv => headers_set kv.1 kv.2 h) init ∅.

(** A body: [null], a string, or bytes (an ArrayBuffer or a byte stream). *)
Inductive Body :=
  | BodyNull
  | BodyText (text : string)
  | BodyBytes (bytes : list Byte.byte).

(** The object [new URL(request.url)]: [search] is the raw query string with
    its leading question mark (empty when there is no query), [searchParams]
    the name/value pairs the platform parsed from it. *)
Record URL := mkURL {
  pathname : string;
  search : string;
  searchParams : list (string * string)
}.

(** [url.searchParams.has(key)] *)
Definition searchParams_has (u : URL) (key : string) : bool :=
  existsb (fun kv => String.eqb kv.1 key) (searchParams u).

(** The inbound request. [req_body] is [None] for a null body. *)
Record Request := mkRequest {
  method : string;
  req_url : URL;
  req_headers : Headers;
  req_body : option (list Byte.byte)
}.

(** The upstream request built by
    [new Request(targetUrl, {method, headers, body, redirect})]. *)
Record UpstreamRequest := mkUpstream {
  up_url : string;
  up_method : string;
  up_headers : Headers;
  up_body : option (list Byte.byte);
  up_redirect : string
}.

Record Response := mkResponse {
  status : Z;
  statusText : string;
  resp_headers : Headers;
  resp_body : Body
}.

(** [response.ok] *)
Definition ok (response : Response) : bool :=
  (200 <=? status response) && (status response <=? 299).

(** [new Response(text, { status })]: a string body gets the default
    plain-text content type. *)
Definition textResponse (text : string) (code : Z) : Response :=
  {| status := code;
     statusText := "";
     resp_headers := headers_of [("Content-Type", "text/plain;charset=UTF-8")];
     resp_body := BodyText text |}.

(** [new Response(html, { headers })] of the two documentation pages. *)
Definition htmlResponse (html : string) : Response :=
  {| status := 200;
     statusText := "";
     resp_headers := headers_of [("Content-Type", "text/html; charset=utf-8");
                                 ("Cache-Control", "public, max-age=3600")];
     resp_body := BodyText html |}.

Definition handleCORS : Response :=
  {| status := 204;
     statusText := "";
     resp_headers := headers_of [("Access-Control-Allow-Origin", "*");
                                 ("Access-Control-Allow-Methods", "GET, POST, OPTIONS");
                                 ("Access-Control-Allow-Headers", "Content-Type, Accept");
                                 ("Access-Control-Max-Age", "86400")];
     resp_body := BodyNull |}.

(** ** Effects *)

Inductive Exn := TypeError | RangeError | NetworkError.

Inductive Outcome (A : Type) :=
  | Returns (a : A)
  | Throws (e : Exn).
Arguments Returns {A} a.
Arguments Throws {A} e.

(** What the handler did, in the order it did it. *)
Inductive Event :=
  | Selected (provider : option Provider)
  | Fetched (upstream : UpstreamRequest)
  | Failover (failed : option Provider)
  | Trying (provider : Provider).

Record State := mkState {
  bodyUsed : bool;
  log : list Event
}.

Definition initial : State := {| bodyUsed := false; log := [] |}.

Definition fetched (events : list Event) : list UpstreamRequest :=
  omap (fun e => match e with Fetched r => Some r | _ => None end) events.

Definition tried (events : list Event) : list Provider :=
  omap (fun e => match e with Trying p => Some p | _ => None end) events.

Definition selections (events : list Event) : list (option Provider) :=
  omap (fun e => match e with Selected p => Some p | _ => None end) events.

Definition failovers (events : list Event) : list (option Provider) :=
  omap (fun e => match e with Failover p => Some p | _ => None end) events.

Definition M (A : Type) : Type := State -> Outcome A * State.

Definition ret {A} (a : A) : M A := fun st => (Returns a, st).

Definition throw {A} (e : Exn) : M A := fun st => (Throws e, st).

Definition bind {A B} (m : M A) (k : A -> M B) : M B :=
  fun st =>
    match m st with
    | (Returns a, st') => k a st'
    | (Throws e, st') => (Throws e, st')
    end.

(** [try { m } catch (error) { handler }] *)
Definition try_catch {A} (m : M A) (handler : Exn -> M A) : M A :=
  fun st =>
    match m st with
    | (Returns a, st') => (Returns a, st')
    | (Throws e, st') => handler e st'
    end.

Definition emit (e : Event) : M unit :=
  fun st => (Returns tt, {| bodyUsed := bodyUsed st; log := log st ++ [e] |}).

Notation "'let!' x ':=' m 'in' k" := (bind m (fun x => k))
  (at level 10, x name, m at level 100, k at level 200).
Notation "m ';;' k" := (bind m (fun _ => k))
  (at level 100, k at level 200, right associativity).

(** [await request.arrayBuffer()] *)
Definition arrayBuffer (request : Request) : M (list Byte.byte) :=
  fun st =>
    match req_body request with
    | None => (Returns [], st)
    | Some bytes =>
        if bodyUsed st then (Throws TypeError, st)
        else (Returns bytes, {| bodyUsed := true; log := log st |})
    end.

(** The status check of the [Response] constructor. *)
Definition statusInRange (code : Z) : bool :=
  (200 <=? code) && (code <=? 599).

(** [new Response(body, { status, statusText, headers })] *)
Definition newResponse (body : Body) (code : Z) (text : string) (headers : Headers)
  : M Response :=
  if statusInRange code then
    ret {| status := code; statusText := text; resp_headers := headers;
           resp_body := body |}
  else throw RangeError.

(** ** The router *)

Definition dnsMessage : string := "application/dns-message".
Definition userAgent : string := "DoH-Proxy-Worker/1.0".

(** The headers of the upstream request: a copy of the inbound headers, then
    [Content-Type] for POST and [Accept] otherwise, then [User-Agent]. *)
Definition upstreamHeaders (request : Request) (isPost : bool) : Headers :=
  let headers := req_headers request in
  let headers :=
    if isPost then headers_set "Content-Type" dnsMessage headers
    else headers_set "Accept" dnsMessage headers in
  headers_set "User-Agent" userAgent headers.

(** The four headers both success paths set on a copy of the upstream
    response headers. *)
Definition forcedHeaders (upstream : Headers) : Headers :=
  let responseHeaders := upstream in
  let responseHeaders := headers_set "Access-Control-Allow-Origin" "*" responseHeaders in
  let responseHeaders := headers_set "Access-Control-Allow-Methods" "GET, POST, OPTIONS" responseHeaders in
  let responseHeaders := headers_set "Access-Control-Allow-Headers" "Content-Type, Accept" responseHeaders in
  headers_set "Cache-Control" ("public, max-age=" +:+ pretty CACHE_TTL) responseHeaders.

Section Router.

(** [registry] stands for the module-level list of providers; the worker is
    the instance at [DOH_PROVIDERS]. *)
Variable registry : list Provider.
(** The network, the value of [Math.random()], the value of [Date.now()],
    [Date.prototype.toUTCString], and the two HTML documents. *)
Variable net : nat -> UpstreamRequest -> Outcome Response.
Variable u : float.
Variable now : Z.
Variable toUTCString : Z -> string.
Variable landingHtml : Request -> string.
Variable encodingHtml : string.

(** [await fetch(upstreamRequest)] *)
Definition fetch (upstreamRequest : UpstreamRequest) : M Response :=
  fun st =>
    (net (length (fetched (log st))) upstreamRequest,
     {| bodyUsed := bodyUsed st; log := log st ++ [Fetched upstreamRequest] |}).

Definition serveLandingPage (request : Request) : Response :=
  htmlResponse (landingHtml request).

Definition serveDNSEncodingExplanation : Response :=
  htmlResponse encodingHtml.

(** The call [selectProvider(DOH_PROVIDERS)] in the handler. *)
Definition selectProvider : M (option Provider) :=
  let selected := Select.selectProvider registry u in
  emit (Selected selected);; ret selected.

(** One iteration of the failover loop, inside its [try]: [Some response]
    when the [return] is taken, [None] when the response is not [ok]. *)
Definition fallbackAttempt (request : Request) (url' : URL) (provider : Provider)
  : M (option Response) :=
  let targetUrl := url provider +:+ search url' in
  let isPost := String.eqb (method request) "POST" in
  let headers := upstreamHeaders request isPost in
  let! body := (if isPost then (let! bytes := arrayBuffer request in ret (Some bytes))
                else ret None) in
  let upstreamRequest :=
    {| up_url := targetUrl; up_method := method request; up_headers := headers;
       up_body := body; up_redirect := "follow" |} in
  let! response := fetch upstreamRequest in
  if ok response then
    let responseHeaders := forcedHeaders (resp_headers response) in
    let! returned := newResponse (resp_body response) (status response)
                       (statusText response) responseHeaders in
    ret (Some returned)
  else ret None.

Fixpoint fallbackLoop (request : Request) (url' : URL) (fallbackProviders : list Provider)
  : M Response :=
  match fallbackProviders with
  | [] => ret (textResponse "All DNS providers are unavailable" 503)
  | provider :: rest =>
      emit (Trying provider);;
      let! returned := try_catch (fallbackAttempt request url' provider)
                                 (fun _ => ret None) in
      match returned with
      | Some response => ret response
      | None => fallbackLoop request url' rest
      end
  end.

(** [DOH_PROVIDERS.filter(p => p.name !== failedProvider.name)]; reading
    [.name] of [undefined] throws as soon as the callback runs. *)
Definition fallbackProviders (failedProvider : option Provider) : M (list Provider) :=
  match failedProvider, registry with
  | _, [] => ret []
  | None, _ :: _ => throw TypeError
  | Some failed, _ =>
      ret (List.filter (fun p => negb (String.eqb (name p) (name failed))) registry)
  end.

Definition tryFallbackProviders (request : Request) (url' : URL)
    (failedProvider : option Provider) : M Response :=
  emit (Failover failedProvider);;
  let! candidates := fallbackProviders failedProvider in
  fallbackLoop request url' candidates.

(** The [try] block of [handleRequest]. *)
Definition primaryAttempt (request : Request) (url' : URL) (isPost : bool)
    (selectedProvider : option Provider) : M Response :=
  let! provider := (match selectedProvider with
                    | Some p => ret p
                    | None => throw TypeError
                    end) in
  let targetUrl := url provider +:+ search url' in
  let headers := upstreamHeaders request isPost in
  let! body := (if isPost then (let! bytes := arrayBuffer request in ret (Some bytes))
                else ret None) in
  let upstreamRequest :=
    {| up_url := targetUrl; up_method := method request; up_headers := headers;
       up_body := body; up_redirect := "follow" |} in
  let! response := fetch upstreamRequest in
  let responseHeaders := forcedHeaders (resp_headers response) in
  let responseHeaders :=
    headers_set "Expires" (toUTCString (now + CACHE_TTL * 1000)) responseHeaders in
  newResponse (resp_body response) (status response) (statusText response)
    responseHeaders.

Definition handleRequest (request : Request) : M Response :=
  let url' := req_url request in
  if String.eqb (pathname url') "/" then ret (serveLandingPage request)
  else if String.eqb (pathname url') "/dns-encoding" then ret serveDNSEncodingExplanation
  else if String.eqb (method request) "OPTIONS" then ret handleCORS
  else if negb (String.eqb (pathname url') "/dns-query") then
    ret (textResponse "Invalid endpoint. Use /dns-query" 400)
  else
    let isGet := String.eqb (method request) "GET" in
    let isPost := String.eqb (method request) "POST" in
    if negb isGet && negb isPost then
      ret (textResponse "Method not allowed. Use GET or POST." 405)
    else if isGet && negb (searchParams_has url' "dns") then
      ret (textResponse "Missing DNS query parameter" 400)
    else
      let! selectedProvider := selectProvider in
      try_catch (primaryAttempt request url' isPost selectedProvider)
                (fun _ => tryFallbackProviders request url' selectedProvider).

End Router.

(** The worker: [export default { fetch }] over the configured registry. *)
Definition worker := handleRequest DOH_PROVIDERS.

(** ** Notions used in the statements *)

(** A GET with a [dns] parameter, or a POST, to [/dns-query]: the requests
    that reach the selection of a provider. *)
Definition dnsQuery (request : Request) : Prop :=
  pathname (req_url request) = "/dns-query" /\
  ((method request = "GET" /\ searchParams_has (req_url request) "dns" = true)
   \/ method request = "POST").

#[global] Instance dnsQuery_dec (request : Request) : Decision (dnsQuery request).
Proof. unfold dnsQuery. apply _. Defined.

(** The upstream request the router builds for [provider] once the inbound
    body has been read. *)
Definition upstreamFor (request : Request) (provider : Provider) : UpstreamRequest :=
  let isPost := String.eqb (method request) "POST" in
  {| up_url := url provider +:+ search (req_url request);
     up_method := method request;
     up_headers := upstreamHeaders request isPost;
     up_body := if isPost then Some (default [] (req_body request)) else None;
     up_redirect := "follow" |}.

(** [up] is the translation of the inbound request for [provider]: the
    URL is the provider's [url] followed by the raw query string, the
    headers are the inbound ones with [Content-Type] (POST) or [Accept]
    (GET) and [User-Agent] set, the body is the inbound one for POST (the
    empty buffer when the inbound body is null) and absent for GET. *)
Definition translates (request : Request) (provider : Provider) (up : UpstreamRequest)
  : Prop :=
  up_url up = url provider +:+ search (req_url request) /\
  up_method up = method request /\
  up_redirect up = "follow" /\
  headers_get "User-Agent" (up_headers up) = Some "DoH-Proxy-Worker/1.0" /\
  (forall key, lower key <> "user-agent" -> lower key <> "content-type" ->
     lower key <> "accept" ->
     headers_get key (up_headers up) = headers_get key (req_headers request)) /\
  (method request = "POST" ->
     up_headers up =
       <["user-agent" := "DoH-Proxy-Worker/1.0"]>
         (<["content-type" := "application/dns-message"]> (req_headers request)) /\
     up_body up = Some (default [] (req_body request))) /\
  (method request = "GET" ->
     up_headers up =
       <["user-agent" := "DoH-Proxy-Worker/1.0"]>
         (<["accept" := "application/dns-message"]> (req_headers request)) /\
     up_body up = None).

(** The answer the primary attempt relays: the answer of the network to
    the primary call when the [Response] constructor accepts its status.
    The attempt throws in the other cases. *)
Definition primaryAnswer (answer : Outcome Response) : option Response :=
  match answer with
  | Returns response => if statusInRange (status response) then Some response else None
  | Throws _ => None
  end.

(** The primary attempt of a POST with a non-null body reads that body, so
    that it is used when failover starts. *)
Definition consumedByPrimary (request : Request) : bool :=
  String.eqb (method request) "POST" && bool_decide (is_Some (req_body request)).

(** The outcome of the attempt on the failover candidate at position [i]:
    the re-read of a consumed body throws before any upstream call;
    otherwise it is the answer of the network to call [1 + i] (call [0] was
    the primary one). *)
Definition candidateAnswer (net : nat -> UpstreamRequest -> Outcome Response)
    (request : Request) (i : nat) (candidate : Provider) : Outcome Response :=
  if consumedByPrimary request then Throws TypeError
  else net (S i) (upstreamFor request candidate).

(** An attempt that throws or answers with a status that is not 2xx. *)
Definition unsuccessful (answer : Outcome Response) : Prop :=
  match answer with
  | Throws _ => True
  | Returns response => ok response = false
  end.

(** The failover candidates for a failed provider. *)
Definition candidates (registry : list Provider) (failed : Provider) : list Provider :=
  List.filter (fun p => negb (String.eqb (name p) (name failed))) registry.

(** The state after more events were logged. *)
Definition logged (st : State) (events : list Event) : State :=
  {| bodyUsed := bodyUsed st; log := log st ++ events |}.

(** The events of one failover iteration that reached its upstream call. *)
Definition attemptEvents (request : Request) (candidate : Provider) : list Event :=
  [Trying candidate; Fetched (upstreamFor request candidate)].

(** The response built on the failover path from an upstream response. *)
Definition fallbackResponse (response : Response) : Response :=
  {| status := status response;
     statusText := statusText response;
     resp_headers := forcedHeaders (resp_headers response);
     resp_body := resp_body response |}.

(** The response built on the primary path from an upstream response. *)
Definition primaryResponse (now : Z) (toUTCString : Z -> string) (response : Response)
  : Response :=
  {| status := status response;
     statusText := statusText response;
     resp_headers := headers_set "Expires" (toUTCString (now + CACHE_TTL * 1000))
                       (forcedHeaders (resp_headers response));
     resp_body := resp_body response |}.

Definition unavailable : Response :=
  textResponse "All DNS providers are unavailable" 503.

(** The state in which the failover loop starts after the primary call for
    [p] threw. *)
Definition afterPrimary (request : Request) (p : Provider) : State :=
  logged {| bodyUsed := consumedByPrimary request;
            log := [Selected (Some p); Fetched (upstreamFor request p)] |}
         [Failover (Some p)].

(** Status, status text and body of [out] are those of [upstream]. *)
Definition passesThrough (upstream out : Response) : Prop :=
  status out = status upstream /\
  statusText out = statusText upstream /\
  resp_body out = resp_body upstream.

Definition carriesForcedHeaders (h : Headers) : Prop :=
  headers_get "Access-Control-Allow-Origin" h = Some "*" /\
  headers_get "Access-Control-Allow-Methods" h = Some "GET, POST, OPTIONS" /\
  headers_get "Access-Control-Allow-Headers" h = Some "Content-Type, Accept" /\
  headers_get "Cache-Control" h = Some "public, max-age=300".


(** An attempt that is answered with a 2xx status. *)
Definition succeeds (answer : Outcome Response) : bool :=
  match answer with
  | Returns response => ok response
  | Throws _ => false
  end.

(** ** Sample runs *)

Module Sample.

Definition getRequest : Request :=
  {| method := "GET";
     req_url := {| pathname := "/dns-query"; search := "?dns=AAABAAABAAAAAAAAA3d3dwdleGFtcGxlA2NvbQAAAQAB";
                   searchParams := [("dns", "AAABAAABAAAAAAAAA3d3dwdleGFtcGxlA2NvbQAAAQAB")] |};
     req_headers := headers_of [("Accept", "*/*"); ("User-Agent", "curl/8.0")];
     req_body := None |}.

Definition postRequest : Request :=
  {| method := "POST";
     req_url := {| pathname := "/dns-query"; search := ""; searchParams := [] |};
     req_headers := headers_of [("Content-Type", "application/octet-stream")];
     req_body := Some [Byte.x00; Byte.x01; Byte.x01; Byte.x00] |}.

Definition noDnsRequest : Request :=
  {| method := "GET";
     req_url := {| pathname := "/dns-query"; search := "?name=example.com";
                   searchParams := [("name", "example.com")] |};
     req_headers := ∅;
     req_body := None |}.

Definition answer (code : Z) : Response :=
  {| status := code; statusText := "";
     resp_headers := headers_of [("Content-Type", "application/dns-message")];
     resp_body := BodyBytes [Byte.x00; Byte.x01] |}.

(** The primary call throws, the next one answers 502, the rest 200. *)
Definition flaky (n : nat) (_ : UpstreamRequest) : Outcome Response :=
  match n with
  | O => Throws NetworkError
  | S O => Returns (answer 502)
  | _ => Returns (answer 200)
  end.

(** The primary call throws, every later one answers 500. *)
Definition down (n : nat) (_ : UpstreamRequest) : Outcome Response :=
  match n with
  | O => Throws NetworkError
  | _ => Returns (answer 500)
  end.

(** Every call answers 404. *)
Definition notFound (_ : nat) (_ : UpstreamRequest) : Outcome Response :=
  Returns (answer 404).

(** The primary call is answered with the status 999, every later one
    with 200. *)
Definition unassigned (n : nat) (_ : UpstreamRequest) : Outcome Response :=
  match n with
  | O => Returns (answer 999)
  | _ => Returns (answer 200)
  end.

(** The registry of the selection example: weights 20, 15, 15, 10. *)
Definition abcd : list Provider := [
  mkProvider "A" "https://a.example/dns-query" 20;
  mkProvider "B" "https://b.example/dns-query" 15;
  mkProvider "C" "https://c.example/dns-query" 15;
  mkProvider "D" "https://d.example/dns-query" 10
].

(** Three small weights and one above [2^53]: the sum, [2^53 + 7], is not
    a binary64 value. *)
Definition huge : list Provider := [
  mkProvider "A" "https://a.example/dns-query" 1;
  mkProvider "B" "https://b.example/dns-query" 1;
  mkProvider "C" "https://c.example/dns-query" 1;
  mkProvider "D" "https://d.example/dns-query" 9007199254740996
].

(** [1 - 2^-51], a value [Math.random()] can return. *)
Definition nearOne : float := 0x1.ffffffffffffcp-1%float.

(** Values of [Math.random()] for which the draw over [abcd] is 18, 25
    and 42. *)
Definition draw18 : float := 0x1.3333333333333p-2%float.
Definition draw25 : float := 0x1.aaaaaaaaaaaabp-2%float.
Definition draw42 : float := 0x1.6666666666666p-1%float.

Definition google : Provider := mkProvider "Google" "https://dns.google/dns-query" 15.
Definition cloudflare : Provider :=
  mkProvider "Cloudflare" "https://cloudflare-dns.com/dns-query" 20.
Definition quad9 : Provider := mkProvider "Quad9" "https://dns.quad9.net/dns-query" 15.

(** OPTIONS to the landing page, OPTIONS to a path that is no endpoint, a
    GET with a [dns] parameter to such a path, and a DELETE to the endpoint. *)
Definition rootOptions : Request :=
  {| method := "OPTIONS";
     req_url := {| pathname := "/"; search := ""; searchParams := [] |};
     req_headers := ∅; req_body := None |}.

Definition elsewhereOptions : Request :=
  {| method := "OPTIONS";
     req_url := {| pathname := "/resolve"; search := ""; searchParams := [] |};
     req_headers := ∅; req_body := None |}.

Definition elsewhereGet : Request :=
  {| method := "GET";
     req_url := {| pathname := "/resolve"; search := "?dns=AAAB";
                   searchParams := [("dns", "AAAB")] |};
     req_headers := ∅; req_body := None |}.

Definition deleteRequest : Request :=
  {| method := "DELETE";
     req_url := {| pathname := "/dns-query"; search := "?dns=AAAB";
                   searchParams := [("dns", "AAAB")] |};
     req_headers := ∅; req_body := None |}.

(** A network whose answers do not change: only Quad9 is up. *)
Definition quad9Only (up : UpstreamRequest) : Outcome Response :=
  if String.eqb (up_url up) (url quad9 +:+ search (req_url getRequest))
  then Returns (answer 200) else Throws NetworkError.

Definition utc (_ : Z) : string := "Thu, 01 Jan 1970 00:05:00 GMT".

Definition run (net : nat -> UpstreamRequest -> Outcome Response) (u : float)
    (request : Request) : Outcome Response * State :=
  worker net u 0 utc (fun _ => "") "" request initial.

End Sample.

(** * Properties *)

(** ** Binary64 arithmetic *)

Lemma digits2_pos_bounds (p : positive) :
  2 ^ (Zpos (digits2_pos p) - 1) <= Zpos p < 2 ^ Zpos (digits2_pos p).
Proof.
  induction p as [p IH|p IH|]; cbn [digits2_pos].
  - rewrite Pos2Z.inj_succ.
    replace (Z.succ (Zpos (digits2_pos p)) - 1) with (Z.succ (Zpos (digits2_pos p) - 1)) by lia.
    rewrite !Z.pow_succ_r by lia. lia.
  - rewrite Pos2Z.inj_succ.
    replace (Z.succ (Zpos (digits2_pos p)) - 1) with (Z.succ (Zpos (digits2_pos p) - 1)) by lia.
    rewrite !Z.pow_succ_r by lia. lia.
  - cbn. lia.
Qed.

(** The number of digits is determined by the magnitude. *)
Lemma digits2_pos_unique (p : positive) (d : Z) :
  2 ^ (d - 1) <= Zpos p < 2 ^ d -> Zpos (digits2_pos p) = d.
Proof.
  intros [Hlo Hhi].
  destruct (digits2_pos_bounds p) as [Hlo' Hhi'].
  assert (0 < d).
  { destruct (Z.ltb_spec 0 d); [done|]. 
    assert (2 ^ d <= 2 ^ 0) by (apply Z.pow_le_mono_r; lia). cbn in *. lia. }
  destruct (Z.lt_trichotomy (Zpos (digits2_pos p)) d) as [Hlt|[Heq|Hgt]]; [|done|].
  - assert (2 ^ Zpos (digits2_pos p) <= 2 ^ (d - 1)) by (apply Z.pow_le_mono_r; lia). lia.
  - assert (2 ^ d <= 2 ^ (Zpos (digits2_pos p) - 1)) by (apply Z.pow_le_mono_r; lia). lia.
Qed.

Lemma shift_pos_Z (k p : positive) : Zpos (shift_pos k p) = Zpos p * 2 ^ Zpos k.
Proof. rewrite shift_pos_correct, Z.pow_pos_fold. lia. Qed.

Lemma digits2_pos_shift (k p : positive) :
  Zpos (digits2_pos (shift_pos k p)) = Zpos (digits2_pos p) + Zpos k.
Proof.
  apply digits2_pos_unique. rewrite shift_pos_Z.
  destruct (digits2_pos_bounds p) as [Hlo Hhi].
  replace (Zpos (digits2_pos p) + Zpos k - 1) with (Zpos (digits2_pos p) - 1 + Zpos k) by lia.
  rewrite !Z.pow_add_r by lia.
  assert (0 < 2 ^ Zpos k) by (apply Z.pow_pos_nonneg; lia).
  nia.
Qed.


Lemma cexp_eq (p : positive) (e : Z) :
  cexp p e = Z.max (Zpos (digits2_pos p) + e - 53) (-1074).
Proof. reflexivity. Qed.

Lemma iter_shr_exact (k : positive) :
  forall q : positive,
    SpecFloat.iter_pos shr_1 k {| shr_m := Zpos (shift_pos k q); shr_r := false; shr_s := false |}
    = {| shr_m := Zpos q; shr_r := false; shr_s := false |}.
Proof.
  induction k as [k IH|k IH|]; intros q.
  - change (shift_pos k~1 q) with (xO (shift_pos k (shift_pos k q))).
    cbn [SpecFloat.iter_pos shr_1 orb]. by rewrite !IH.
  - change (shift_pos k~0 q) with (shift_pos k (shift_pos k q)).
    cbn [SpecFloat.iter_pos]. by rewrite !IH.
  - reflexivity.
Qed.

Lemma round_canonical (q : positive) (c : Z) :
  cexp q c = c -> c <= 971 ->
  binary_round_aux prec emax false (Zpos q) c loc_Exact = S754_finite false q c.
Proof.
  intros Hc Hmax. unfold binary_round_aux, shr_fexp. cbn [Zdigits2 shr_record_of_loc].
  fold (cexp q c). rewrite Hc, Z.sub_diag. cbn [shr shr_m loc_of_shr_record round_nearest_even Zdigits2].
  fold (cexp q c). rewrite Hc, Z.sub_diag. cbn [shr shr_m].
  replace (c <=? emax - prec) with true; [done|].
  symmetry. apply Z.leb_le. unfold emax, prec. lia.
Qed.

Lemma round_shifted (q k : positive) (e c : Z) :
  Zpos k = c - e ->
  cexp (shift_pos k q) e = c ->
  c <= 971 ->
  binary_round_aux prec emax false (Zpos (shift_pos k q)) e loc_Exact
  = S754_finite false q c.
Proof.
  intros Hk Hc Hmax.
  assert (Hq : cexp q c = c).
  { rewrite <- Hc at 2. rewrite !cexp_eq, digits2_pos_shift. f_equal. lia. }
  unfold binary_round_aux, shr_fexp. cbn [Zdigits2 shr_record_of_loc].
  fold (cexp (shift_pos k q) e). rewrite Hc, <- Hk. cbn [shr].
  rewrite iter_shr_exact. cbn [shr_m loc_of_shr_record round_nearest_even Zdigits2].
  replace (e + Zpos k) with c by lia.
  fold (cexp q c). rewrite Hq, Z.sub_diag. cbn [shr shr_m].
  replace (c <=? emax - prec) with true; [done|].
  symmetry. apply Z.leb_le. unfold emax, prec. lia.
Qed.

Lemma normalize_up (p : positive) (e : Z) :
  cexp p e <= e -> cexp p e <= 971 ->
  exists q : positive,
    binary_normalize prec emax (Zpos p) e false = S754_finite false q (cexp p e) /\
    Zpos q = Zpos p * 2 ^ (e - cexp p e) /\
    cexp q (cexp p e) = cexp p e.
Proof.
  intros Hle Hmax. unfold binary_normalize, binary_round, shl_align. fold (cexp p e).
  destruct (cexp p e - e) as [|d|d] eqn:Hd; [| lia |].
  - exists p. assert (Heq : cexp p e = e) by lia.
    rewrite Heq, Z.sub_diag, Z.mul_1_r.
    rewrite round_canonical by (rewrite ?Heq in *; lia || done). done.
  - exists (shift_pos d p). fold (shift_pos d p).
    assert (Hc : cexp (shift_pos d p) (cexp p e) = cexp p e).
    { rewrite !cexp_eq, digits2_pos_shift. rewrite !cexp_eq in Hd. f_equal. lia. }
    rewrite round_canonical by done.
    rewrite shift_pos_Z. repeat split; [|done]. f_equal. f_equal. lia.
Qed.

Lemma normalize_down (q k : positive) (e : Z) :
  Zpos k = cexp (shift_pos k q) e - e ->
  cexp (shift_pos k q) e <= 971 ->
  binary_normalize prec emax (Zpos (shift_pos k q)) e false
    = S754_finite false q (cexp (shift_pos k q) e) /\
  cexp q (cexp (shift_pos k q) e) = cexp (shift_pos k q) e.
Proof.
  intros Hk Hmax. unfold binary_normalize, binary_round, shl_align.
  fold (cexp (shift_pos k q) e). rewrite <- Hk.
  split.
  - by apply round_shifted.
  - rewrite !cexp_eq, digits2_pos_shift. rewrite !cexp_eq, digits2_pos_shift in Hk. lia.
Qed.


Lemma valid_finite (s : bool) (m : positive) (e : Z) :
  valid_binary (S754_finite s m e) = true -> cexp m e = e /\ e <= 971.
Proof.
  unfold SpecFloat.valid_binary, bounded, canonical_mantissa. fold (cexp m e).
  intros H. apply andb_true_iff in H as [Hc He].
  apply Z.eqb_eq in Hc. apply Z.leb_le in He. unfold emax, prec in He. lia.
Qed.

Lemma finite_valid (m : positive) (e : Z) :
  cexp m e = e -> e <= 971 -> valid_binary (S754_finite false m e) = true.
Proof.
  intros Hc He. unfold SpecFloat.valid_binary, bounded, canonical_mantissa. fold (cexp m e).
  apply andb_true_iff. split; [by apply Z.eqb_eq|].
  apply Z.leb_le. unfold emax, prec. lia.
Qed.

Lemma canonical_facts (m : positive) (e : Z) :
  cexp m e = e ->
  -1074 <= e /\ Zpos m < 2 ^ 53 /\ (-1074 < e -> 2 ^ 52 <= Zpos m).
Proof.
  rewrite cexp_eq. intros Hc.
  destruct (digits2_pos_bounds m) as [Hlo Hhi].
  assert (Hd : Zpos (digits2_pos m) <= 53) by lia.
  split; [lia|]. split.
  - assert (2 ^ Zpos (digits2_pos m) <= 2 ^ 53) by (apply Z.pow_le_mono_r; lia). lia.
  - intros He. assert (Hd' : Zpos (digits2_pos m) = 53) by lia.
    rewrite Hd' in Hlo. exact Hlo.
Qed.

Lemma pow2_pos (a : Z) : 0 <= a -> 0 < 2 ^ a.
Proof. intros. apply Z.pow_pos_nonneg; lia. Qed.

Lemma canonical_lt (m1 m2 : positive) (e1 e2 : Z) :
  cexp m1 e1 = e1 -> cexp m2 e2 = e2 -> e1 < e2 ->
  Zpos m1 * 2 ^ (e1 + 1074) < Zpos m2 * 2 ^ (e2 + 1074).
Proof.
  intros H1 H2 Hlt.
  destruct (canonical_facts m1 e1 H1) as (He1 & Hm1 & _).
  destruct (canonical_facts m2 e2 H2) as (_ & _ & Hm2).
  specialize (Hm2 ltac:(lia)).
  replace (e2 + 1074) with ((e2 - e1 - 1) + 1 + (e1 + 1074)) by lia.
  rewrite (Z.pow_add_r 2 (e2 - e1 - 1 + 1) (e1 + 1074)),
    (Z.pow_add_r 2 (e2 - e1 - 1) 1) by lia.
  pose proof (pow2_pos (e1 + 1074) ltac:(lia)).
  pose proof (pow2_pos (e2 - e1 - 1) ltac:(lia)).
  change (2 ^ 1) with 2. change (2 ^ 53) with 9007199254740992 in Hm1.
  change (2 ^ 52) with 4503599627370496 in Hm2.
  set (P := 2 ^ (e1 + 1074)) in *. set (Q := 2 ^ (e2 - e1 - 1)) in *.
  assert (Zpos m1 * P < 9007199254740992 * P) by (apply Z.mul_lt_mono_pos_r; lia).
  assert (4503599627370496 * (2 * P) <= Zpos m2 * (2 * P))
    by (apply Z.mul_le_mono_nonneg_r; lia).
  assert (Zpos m2 * (2 * P) * 1 <= Zpos m2 * (2 * P) * Q)
    by (apply Z.mul_le_mono_nonneg_l; lia).
  lia.
Qed.

Lemma SFcompare_scaled (x y : spec_float) :
  valid_binary x = true -> valid_binary y = true ->
  SFnonneg x = true -> SFnonneg y = true ->
  SFcompare x y = Some (SFscaled x ?= SFscaled y).
Proof.
  intros Hx Hy Hnx Hny.
  destruct x as [sx|sx| |sx mx ex], y as [sy|sy| |sy my ey]; try discriminate;
    cbn [SFcompare SFscaled].
  - done.
  - destruct sy; [discriminate|].
    assert (0 < Zpos my * 2 ^ (ey + 1074)).
    { apply valid_finite in Hy as [Hy _]. apply canonical_facts in Hy as (? & _).
      pose proof (pow2_pos (ey + 1074) ltac:(lia)). nia. }
    symmetry. f_equal. by apply Z.compare_lt_iff.
  - destruct sx; [discriminate|].
    assert (0 < Zpos mx * 2 ^ (ex + 1074)).
    { apply valid_finite in Hx as [Hx _]. apply canonical_facts in Hx as (? & _).
      pose proof (pow2_pos (ex + 1074) ltac:(lia)). nia. }
    symmetry. f_equal. by apply Z.compare_gt_iff.
  - destruct sx, sy; try discriminate.
    apply valid_finite in Hx as [Hx _]. apply valid_finite in Hy as [Hy _].
    f_equal. destruct (Z.compare_spec ex ey) as [->|Hlt|Hgt].
    + destruct (canonical_facts my ey Hy) as (? & _).
      pose proof (pow2_pos (ey + 1074) ltac:(lia)).
      change (Pos.compare_cont Eq mx my) with (mx ?= my)%positive.
      destruct (Pos.compare_spec mx my) as [->|Hlt|Hgt]; symmetry.
      * apply Z.compare_refl.
      * apply Z.compare_lt_iff. apply Z.mul_lt_mono_pos_r; lia.
      * apply Z.compare_gt_iff. apply Z.mul_lt_mono_pos_r; lia.
    + symmetry. apply Z.compare_lt_iff. by apply canonical_lt.
    + symmetry. apply Z.compare_gt_iff. by apply canonical_lt.
Qed.

Lemma holds_ltb (x y : float) (vx vy : Z) :
  holds x vx -> holds y vy -> (x <? y)%float = (vx <? vy).
Proof.
  intros [Hnx <-] [Hny <-]. rewrite ltb_spec. unfold SFltb.
  rewrite SFcompare_scaled by (done || apply Prim2SF_valid).
  unfold Z.ltb. by destruct (_ ?= _).
Qed.

Lemma holds_leb (x y : float) (vx vy : Z) :
  holds x vx -> holds y vy -> (x <=? y)%float = (vx <=? vy).
Proof.
  intros [Hnx <-] [Hny <-]. rewrite leb_spec. unfold SFleb.
  rewrite SFcompare_scaled by (done || apply Prim2SF_valid).
  unfold Z.leb. by destruct (_ ?= _).
Qed.

(** ** Integers as doubles *)


Lemma digits_le_53 (p : positive) : Zpos p < 2 ^ 53 -> Zpos (digits2_pos p) <= 53.
Proof.
  intros Hp. destruct (digits2_pos_bounds p) as [Hlo _].
  destruct (Z.le_gt_cases (Zpos (digits2_pos p)) 53) as [|Hgt]; [done|].
  assert (2 ^ 53 <= 2 ^ (Zpos (digits2_pos p) - 1)) by (apply Z.pow_le_mono_r; lia).
  lia.
Qed.

Lemma Prim2SF_numberOf_pos (p : positive) :
  Zpos p < 2 ^ 53 ->
  exists (q : positive) (c : Z),
    Prim2SF (numberOf (Zpos p)) = S754_finite false q c /\
    cexp q c = c /\ -52 <= c <= 0 /\
    Zpos q * 2 ^ (c + 1074) = Zpos p * 2 ^ 1074.
Proof.
  intros Hp. pose proof (digits_le_53 p Hp) as Hd.
  assert (Hc : cexp p 0 = Zpos (digits2_pos p) - 53) by (rewrite cexp_eq; lia).
  destruct (normalize_up p 0) as (q & Hnorm & Hq & Hcq); [lia | lia |].
  exists q, (cexp p 0). unfold numberOf. rewrite Hnorm.
  rewrite Prim2SF_SF2Prim by (apply finite_valid; [done | lia]).
  split; [done|]. split; [done|]. split; [lia|].
  rewrite Hq, <- Z.mul_assoc, <- Z.pow_add_r by lia. f_equal. f_equal. lia.
Qed.

Lemma holds_numberOf (n : Z) : 0 <= n <= 2 ^ 53 -> holds (numberOf n) (n * 2 ^ 1074).
Proof.
  intros [H0 Hn]. destruct n as [|p|p]; [| |lia].
  - split; reflexivity.
  - destruct (Z.eq_dec (Zpos p) (2 ^ 53)) as [Heq|Hne].
    + rewrite Heq. split; vm_compute; reflexivity.
    + destruct (Prim2SF_numberOf_pos p) as (q & c & Hq & _ & _ & Hv); [lia|].
      unfold holds. rewrite Hq. by split.
Qed.

(** ** Subtracting an integer weight is exact *)

Lemma shl_align_fst (m : positive) (e e' : Z) :
  e' <= e -> Zpos (fst (shl_align m e e')) = Zpos m * 2 ^ (e - e').
Proof.
  intros Hle. unfold shl_align.
  destruct (e' - e) as [|d|d] eqn:Hd; [|lia|]; cbn [fst].
  - replace (e - e') with 0 by lia. lia.
  - fold (shift_pos d m). rewrite shift_pos_Z. f_equal. f_equal. lia.
Qed.

Lemma divide_shift (p : positive) (k : positive) (t : Z) :
  Zpos p = t * 2 ^ Zpos k -> exists q : positive, p = shift_pos k q /\ Zpos q = t.
Proof.
  intros Hp. pose proof (pow2_pos (Zpos k) ltac:(lia)) as Hpow.
  assert (Ht : 0 < t) by nia.
  exists (Z.to_pos t). split; [|lia].
  apply Pos2Z.inj. rewrite shift_pos_Z, Z2Pos.id by done. exact Hp.
Qed.

Lemma digits_le (p : positive) (n : Z) :
  0 <= n -> Zpos p < 2 ^ n -> Zpos (digits2_pos p) <= n.
Proof.
  intros Hn Hp. destruct (digits2_pos_bounds p) as [Hlo _].
  destruct (Z.le_gt_cases (Zpos (digits2_pos p)) n) as [|Hgt]; [done|].
  assert (2 ^ n <= 2 ^ (Zpos (digits2_pos p) - 1)) by (apply Z.pow_le_mono_r; lia).
  lia.
Qed.

Lemma pow2_split (a b c : Z) : 0 <= a -> 0 <= b -> c = a + b -> 2 ^ c = 2 ^ a * 2 ^ b.
Proof. intros Ha Hb ->. by apply Z.pow_add_r. Qed.

(** A double of value at least 1 and below 2^53 has its exponent in
    [-52, 0]. *)
Lemma exponent_range (m : positive) (e : Z) :
  cexp m e = e ->
  2 ^ 1074 <= Zpos m * 2 ^ (e + 1074) < 2 ^ 53 * 2 ^ 1074 ->
  -52 <= e <= 0.
Proof.
  intros Hc [Hlo Hhi].
  destruct (canonical_facts m e Hc) as (He & Hm & Hnormal).
  pose proof (pow2_pos 1074 ltac:(lia)) as HK.
  split.
  - destruct (Z.le_gt_cases (-52) e) as [|Hsmall]; [done|]. exfalso.
    rewrite (pow2_split (-53 - e) (e + 1074 + 53) 1074) in Hlo by lia.
    rewrite (pow2_split (e + 1074) 53 (e + 1074 + 53)) in Hlo by lia.
    pose proof (pow2_pos (-53 - e) ltac:(lia)).
    pose proof (pow2_pos (e + 1074) ltac:(lia)).
    set (P := 2 ^ (e + 1074)) in *. set (Q := 2 ^ (-53 - e)) in *.
    assert (Zpos m * P < 2 ^ 53 * P) by (apply Z.mul_lt_mono_pos_r; lia).
    assert (1 * (P * 2 ^ 53) <= Q * (P * 2 ^ 53)).
    { apply Z.mul_le_mono_nonneg_r; [|lia]. apply Z.mul_nonneg_nonneg; lia. }
    lia.
  - destruct (Z.le_gt_cases e 0) as [|Hbig]; [done|]. exfalso.
    specialize (Hnormal ltac:(lia)).
    rewrite (pow2_split (e - 1) 1075 (e + 1074)) in Hhi by lia.
    rewrite (pow2_split 1 1074 1075) in Hhi by lia.
    pose proof (pow2_pos (e - 1) ltac:(lia)).
    change (2 ^ 1) with 2 in Hhi. change (2 ^ 53) with (2 * 2 ^ 52) in Hhi.
    set (K := 2 ^ 1074) in *. set (Q := 2 ^ (e - 1)) in *. set (T := 2 ^ 52) in *.
    assert (T * (2 * K) <= Zpos m * (2 * K)) by (apply Z.mul_le_mono_nonneg_r; lia).
    assert (Zpos m * (2 * K) * 1 <= Zpos m * (2 * K) * Q)
      by (apply Z.mul_le_mono_nonneg_l; lia).
    lia.
Qed.

Lemma holds_finite (x : float) (X : Z) :
  holds x X -> 0 < X ->
  exists (m : positive) (e : Z),
    Prim2SF x = S754_finite false m e /\ cexp m e = e /\ e <= 971 /\
    Zpos m * 2 ^ (e + 1074) = X.
Proof.
  intros [Hn HX] Hpos. pose proof (Prim2SF_valid x) as Hv.
  destruct (Prim2SF x) as [s|s| |s m e]; try (cbn in HX; lia).
  destruct s; [discriminate Hn|].
  apply valid_finite in Hv as [Hc He]. by exists m, e.
Qed.

Lemma holds_sub (x : float) (X w : Z) :
  holds x X ->
  0 < w ->
  w * 2 ^ 1074 <= X ->
  X < 2 ^ 53 * 2 ^ 1074 ->
  holds (x - numberOf w)%float (X - w * 2 ^ 1074).
Proof.
  intros Hx Hw Hle Hlt.
  pose proof (pow2_pos 1074 ltac:(lia)) as HK.
  assert (HwK : 1 * 2 ^ 1074 <= w * 2 ^ 1074) by (apply Z.mul_le_mono_nonneg_r; lia).
  destruct (holds_finite x X Hx ltac:(lia)) as (mx & ex & Ex & Hcx & _ & HX).
  assert (Hw53 : w < 2 ^ 53).
  { apply (Z.mul_lt_mono_pos_r (2 ^ 1074)); lia. }
  destruct w as [|pw|pw]; [lia| |lia].
  destruct (Prim2SF_numberOf_pos pw Hw53) as (my & ey & Ey & Hcy & Hey & HY).
  assert (Hex : -52 <= ex <= 0) by (apply (exponent_range mx ex Hcx); lia).
  destruct (canonical_facts mx ex Hcx) as (_ & Hmx & _).
  unfold holds. rewrite sub_spec, Ex, Ey. unfold SF64sub, SFsub. cbn [cond_Zopp].
  set (ez := Z.min ex ey).
  assert (Hez : -52 <= ez /\ ez <= ex /\ ez <= ey) by (unfold ez; lia).
  rewrite !shl_align_fst by lia.
  pose proof (pow2_pos (ez + 1074) ltac:(lia)) as HE.
  pose proof (pow2_pos (ex - ez) ltac:(lia)) as HA.
  assert (HXE : Zpos mx * 2 ^ (ex - ez) * 2 ^ (ez + 1074) = X).
  { rewrite <- HX, <- Z.mul_assoc, <- Z.pow_add_r by lia. f_equal. f_equal. lia. }
  assert (HYE : Zpos my * 2 ^ (ey - ez) * 2 ^ (ez + 1074) = Zpos pw * 2 ^ 1074).
  { rewrite <- HY, <- Z.mul_assoc, <- Z.pow_add_r by lia. f_equal. f_equal. lia. }
  assert (HME : (Zpos mx * 2 ^ (ex - ez) - Zpos my * 2 ^ (ey - ez)) * 2 ^ (ez + 1074)
                = X - Zpos pw * 2 ^ 1074) by lia.
  destruct (Zpos mx * 2 ^ (ex - ez) - Zpos my * 2 ^ (ey - ez)) as [|p|p] eqn:HM.
  - cbn [binary_normalize SFnonneg SFscaled]. split; [done | lia].
  - (* the canonical exponent of the difference is at most [ex] *)
    assert (Hp : Zpos p < 2 ^ (53 + ex - ez)).
    { rewrite (pow2_split 53 (ex - ez) (53 + ex - ez)) by lia.
      assert (Zpos mx * 2 ^ (ex - ez) < 2 ^ 53 * 2 ^ (ex - ez))
        by (apply Z.mul_lt_mono_pos_r; lia).
      pose proof (pow2_pos (ey - ez) ltac:(lia)). nia. }
    pose proof (digits_le p (53 + ex - ez) ltac:(lia) Hp) as Hd.
    assert (Hc : -1074 <= cexp p ez <= ex) by (rewrite cexp_eq; lia).
    destruct (Z.le_gt_cases (cexp p ez) ez) as [Hup|Hdown].
    + destruct (normalize_up p ez Hup ltac:(lia)) as (q & -> & Hq & _).
      cbn [SFnonneg SFscaled]. split; [done|].
      rewrite Hq, <- Z.mul_assoc, <- Z.pow_add_r by lia.
      replace (ez - cexp p ez + (cexp p ez + 1074)) with (ez + 1074) by lia. lia.
    + assert (Hey' : ez = ey) by lia.
      destruct (cexp p ez - ez) as [|k|k] eqn:Hk; [lia| |lia].
      rewrite Hey', Z.sub_diag, Z.mul_1_r in HM.
      assert (Hmy : Zpos my = Zpos pw * 2 ^ (- cexp p ez) * 2 ^ Zpos k).
      { apply (Z.mul_cancel_r _ _ (2 ^ (ey + 1074))); [lia|].
        rewrite HY, <- !Z.mul_assoc, <- !Z.pow_add_r by lia.
        f_equal. f_equal. lia. }
      assert (Hmx' : Zpos mx * 2 ^ (ex - ey) = Zpos mx * 2 ^ (ex - cexp p ez) * 2 ^ Zpos k).
      { rewrite <- Z.mul_assoc, <- Z.pow_add_r by lia. f_equal. f_equal. lia. }
      destruct (divide_shift p k (Zpos mx * 2 ^ (ex - cexp p ez) - Zpos pw * 2 ^ (- cexp p ez)))
        as (q & Hpq & Hq); [lia|].
      subst p.
      destruct (normalize_down q k ez) as [-> _]; [lia | lia |].
      cbn [SFnonneg SFscaled]. split; [done|].
      rewrite <- HME.
      replace (cexp (shift_pos k q) ez + 1074) with (Zpos k + (ez + 1074)) by lia.
      rewrite Z.pow_add_r, shift_pos_Z by lia. ring.
  - exfalso. pose proof (Pos2Z.neg_is_neg p). nia.
Qed.

Lemma holds_sub_zero (x : float) (X : Z) : holds x X -> holds (x - numberOf 0)%float X.
Proof.
  intros [Hn HX]. unfold holds. rewrite sub_spec.
  change (Prim2SF (numberOf 0)) with (S754_zero false).
  by destruct (Prim2SF x) as [[]|[]| |[] m e].
Qed.

Lemma holds_sub_weight (x : float) (X w : Z) :
  holds x X ->
  0 <= w ->
  w * 2 ^ 1074 <= X ->
  X < 2 ^ 53 * 2 ^ 1074 ->
  holds (x - numberOf w)%float (X - w * 2 ^ 1074).
Proof.
  intros Hx Hw Hle Hlt. destruct (Z.eq_dec w 0) as [->|Hne].
  - rewrite Z.mul_0_l, Z.sub_0_r. by apply holds_sub_zero.
  - apply holds_sub; [done | lia | done | done].
Qed.

Lemma holds_nonneg (x : float) (X : Z) : holds x X -> 0 <= X.
Proof.
  intros [Hn <-]. destruct (Prim2SF x) as [s|s| |[] m e]; cbn [SFscaled]; lia.
Qed.

(** A double between two finite doubles that are not negative is one. *)
Lemma holds_between (y r z : float) (Y Z' : Z) :
  holds y Y -> holds z Z' ->
  (y <=? r)%float = true -> (r <? z)%float = true ->
  exists R, holds r R /\ Y <= R < Z'.
Proof.
  intros Hy Hz Hlo Hhi.
  assert (Hr : SFnonneg (Prim2SF r) = true).
  { destruct Hy as [Hny _], Hz as [Hnz _].
    rewrite leb_spec in Hlo. rewrite ltb_spec in Hhi. unfold SFleb in Hlo. unfold SFltb in Hhi.
    destruct (Prim2SF r) as [sr|sr| |sr mr er]; [done| | |].
    - destruct sr.
      + by destruct (Prim2SF y) as [sy|sy| |[] my ey].
      + by destruct (Prim2SF z) as [sz|sz| |[] mz ez].
    - by destruct (Prim2SF y) as [sy|sy| |sy my ey].
    - destruct sr; [|done].
      by destruct (Prim2SF y) as [sy|sy| |[] my ey]. }
  exists (SFscaled (Prim2SF r)).
  assert (Hholds : holds r (SFscaled (Prim2SF r))) by done.
  split; [done|].
  rewrite (holds_leb y r _ _ Hy Hholds) in Hlo.
  rewrite (holds_ltb r z _ _ Hholds Hz) in Hhi.
  apply Z.leb_le in Hlo. apply Z.ltb_lt in Hhi. lia.
Qed.

(** ** Weighted selection *)

Section Selection.
Import Select.

Lemma fold_weight_shift (providers : list Provider) (a : Z) :
  fold_left (fun sum provider => sum + weight provider) providers a
  = a + weightSum providers.
Proof.
  unfold weightSum. revert a.
  induction providers as [|p rest IH]; intros a; simpl; [lia|].
  rewrite (IH (a + weight p)), (IH (0 + weight p)). lia.
Qed.

Lemma weightSum_cons (p : Provider) (rest : list Provider) :
  weightSum (p :: rest) = weight p + weightSum rest.
Proof. unfold weightSum at 1. simpl. apply fold_weight_shift. Qed.

Lemma weightBefore_0 (providers : list Provider) : weightBefore providers 0 = 0.
Proof. reflexivity. Qed.

Lemma weightBefore_S (p : Provider) (rest : list Provider) (i : nat) :
  weightBefore (p :: rest) (S i) = weight p + weightBefore rest i.
Proof. unfold weightBefore. simpl. apply weightSum_cons. Qed.

Lemma remainderBefore_0 (providers : list Provider) (random : float) :
  remainderBefore providers random 0 = random.
Proof. reflexivity. Qed.

Lemma remainderBefore_S (p : Provider) (rest : list Provider) (random : float) (i : nat) :
  remainderBefore (p :: rest) random (S i)
  = remainderBefore rest (random - numberOf (weight p))%float i.
Proof. reflexivity. Qed.

Lemma weightSum_nonneg (providers : list Provider) :
  Forall (fun p => 0 <= weight p) providers -> 0 <= weightSum providers.
Proof.
  induction 1 as [|p rest Hp _ IH]; [done|].
  rewrite weightSum_cons. lia.
Qed.

Lemma weightBefore_bounds (providers : list Provider) :
  forall (i : nat) (p : Provider),
    Forall (fun p => 0 <= weight p) providers ->
    providers !! i = Some p ->
    0 <= weightBefore providers i /\
    weightBefore providers i + weight p <= weightSum providers.
Proof.
  induction providers as [|p0 rest IH]; intros i p Hall Hi; [done|].
  apply Forall_cons in Hall as [Hp0 Hrest].
  pose proof (weightSum_nonneg rest Hrest) as Hnn.
  rewrite weightSum_cons. destruct i as [|i].
  - injection Hi as ->. rewrite weightBefore_0. lia.
  - rewrite weightBefore_S. destruct (IH i p Hrest Hi). lia.
Qed.

Lemma positive_nonneg (providers : list Provider) :
  Forall (fun p => 0 < weight p) providers -> Forall (fun p => 0 <= weight p) providers.
Proof.
  intros Hpos. eapply Forall_impl; [exact Hpos|]. intros p Hp. cbv beta in *. lia.
Qed.

(** With integer weights whose sum is at most [2^53] every subtraction of
    the loop is exact: the loop returns the first provider whose weight
    exceeds the remainder, that provider's cumulative interval holds the
    draw, and the remainders are the exact differences. *)
Lemma selectLoop_first (providers : list Provider) :
  forall (random : float) (R : Z),
    holds random R ->
    Forall (fun p => 0 <= weight p) providers ->
    weightSum providers <= 2 ^ 53 ->
    R < weightSum providers * 2 ^ 1074 ->
    exists (i : nat) (p : Provider),
      providers !! i = Some p /\
      selectLoop providers random = Some p /\
      weightBefore providers i * 2 ^ 1074 <= R /\
      R < (weightBefore providers i + weight p) * 2 ^ 1074 /\
      (forall (j : nat) (q : Provider), (j < i)%nat -> providers !! j = Some q ->
         (weightBefore providers j + weight q) * 2 ^ 1074 <= R) /\
      (forall j : nat, (j <= i)%nat ->
         holds (remainderBefore providers random j)
               (R - weightBefore providers j * 2 ^ 1074)).
Proof.
  pose proof (pow2_pos 1074 ltac:(lia)) as HK.
  induction providers as [|p rest IH]; intros random R Hr Hall Hsum Hlt.
  - pose proof (holds_nonneg _ _ Hr). cbn in Hlt. lia.
  - apply Forall_cons in Hall as [Hp Hrest].
    pose proof (weightSum_nonneg rest Hrest) as Hnn.
    pose proof (holds_nonneg _ _ Hr) as HR.
    rewrite weightSum_cons in Hsum, Hlt.
    assert (Hw : holds (numberOf (weight p)) (weight p * 2 ^ 1074))
      by (apply holds_numberOf; lia).
    cbn [selectLoop]. rewrite (holds_ltb _ _ _ _ Hr Hw).
    destruct (Z.ltb_spec R (weight p * 2 ^ 1074)) as [Hcmp|Hcmp].
    + exists 0%nat, p. rewrite weightBefore_0.
      split; [done|]. split; [done|]. split; [lia|]. split; [lia|]. split.
      * intros j q Hj. lia.
      * intros j Hj. replace j with 0%nat by lia.
        rewrite remainderBefore_0, weightBefore_0, Z.mul_0_l, Z.sub_0_r. done.
    + assert (Hsub : holds (random - numberOf (weight p))%float (R - weight p * 2 ^ 1074)).
      { apply holds_sub_weight; [done | done | done |].
        assert ((weight p + weightSum rest) * 2 ^ 1074 <= 2 ^ 53 * 2 ^ 1074)
          by (apply Z.mul_le_mono_nonneg_r; lia). lia. }
      destruct (IH _ _ Hsub Hrest ltac:(lia) ltac:(lia))
        as (i & q & Hi & Hsel & Hlo & Hhi & Hfirst & Hrem).
      exists (S i), q. rewrite weightBefore_S.
      split; [done|]. split; [done|]. split; [lia|]. split; [lia|]. split.
      * intros [|j] q' Hj Hq'.
        -- injection Hq' as <-. rewrite weightBefore_0. lia.
        -- rewrite weightBefore_S. specialize (Hfirst j q' ltac:(lia) Hq'). lia.
      * intros [|j] Hj.
        -- rewrite remainderBefore_0, weightBefore_0, Z.mul_0_l, Z.sub_0_r. done.
        -- rewrite remainderBefore_S, weightBefore_S.
           replace (R - (weight p + weightBefore rest j) * 2 ^ 1074)
             with (R - weight p * 2 ^ 1074 - weightBefore rest j * 2 ^ 1074) by lia.
           apply Hrem. lia.
Qed.

(** A draw inside the cumulative interval of position [i] selects the
    provider there. *)
Lemma selectLoop_interval (providers : list Provider) :
  forall (random : float) (R : Z) (i : nat) (p : Provider),
    holds random R ->
    Forall (fun p => 0 <= weight p) providers ->
    weightSum providers <= 2 ^ 53 ->
    providers !! i = Some p ->
    weightBefore providers i * 2 ^ 1074 <= R ->
    R < (weightBefore providers i + weight p) * 2 ^ 1074 ->
    selectLoop providers random = Some p.
Proof.
  pose proof (pow2_pos 1074 ltac:(lia)) as HK.
  induction providers as [|p0 rest IH]; intros random R i p Hr Hall Hsum Hi Hlo Hhi; [done|].
  destruct (weightBefore_bounds (p0 :: rest) i p Hall Hi) as [HW0 HW].
  apply Forall_cons in Hall as [Hp0 Hrest].
  pose proof (weightSum_nonneg rest Hrest) as Hnn.
  rewrite weightSum_cons in Hsum, HW.
  assert (Hw : holds (numberOf (weight p0)) (weight p0 * 2 ^ 1074))
    by (apply holds_numberOf; lia).
  cbn [selectLoop]. rewrite (holds_ltb _ _ _ _ Hr Hw).
  destruct i as [|i].
  - injection Hi as ->. rewrite weightBefore_0 in Hhi.
    by rewrite (proj2 (Z.ltb_lt _ _)) by lia.
  - rewrite weightBefore_S in Hlo, Hhi, HW, HW0. simpl in Hi.
    destruct (weightBefore_bounds rest i p Hrest Hi) as [HW0' _].
    assert (weight p0 * 2 ^ 1074 <= (weight p0 + weightBefore rest i) * 2 ^ 1074)
      by (apply Z.mul_le_mono_nonneg_r; lia).
    assert ((weight p0 + weightBefore rest i + weight p) * 2 ^ 1074 <= 2 ^ 53 * 2 ^ 1074)
      by (apply Z.mul_le_mono_nonneg_r; lia).
    rewrite (proj2 (Z.ltb_ge _ _)) by lia.
    apply (IH _ (R - weight p0 * 2 ^ 1074) i p); [| done | lia | done | lia | lia].
    apply holds_sub_weight; [done | done | lia | lia].
Qed.

(** A draw in [[0, sum)], as the source compares it. *)
Lemma draw_holds (providers : list Provider) (r : float) :
  Forall (fun p => 0 <= weight p) providers ->
  weightSum providers <= 2 ^ 53 ->
  (0 <=? r)%float = true ->
  (r <? numberOf (weightSum providers))%float = true ->
  exists R, holds r R /\ R < weightSum providers * 2 ^ 1074.
Proof.
  intros Hall Hsum H0 Hlt.
  pose proof (weightSum_nonneg providers Hall) as Hnn.
  destruct (holds_between 0%float r (numberOf (weightSum providers)) 0
              (weightSum providers * 2 ^ 1074)) as (R & HR & HRange);
    [by split | apply holds_numberOf; lia | done | done |].
  exists R. split; [done | lia].
Qed.

Lemma numberOf_leb (n : Z) (r : float) (R : Z) :
  0 <= n <= 2 ^ 53 -> holds r R ->
  (numberOf n <=? r)%float = (n * 2 ^ 1074 <=? R).
Proof. intros Hn Hr. apply holds_leb; [by apply holds_numberOf | done]. Qed.

Lemma numberOf_ltb (n : Z) (r : float) (R : Z) :
  0 <= n <= 2 ^ 53 -> holds r R ->
  (r <? numberOf n)%float = (R <? n * 2 ^ 1074).
Proof. intros Hn Hr. apply holds_ltb; [done | by apply holds_numberOf]. Qed.

(** C5. For positive integer weights whose sum is at most [2^53] and a draw
    [r = Math.random() * totalWeight] with [0 <= r < sum], [selectProvider]
    returns the provider at the first position [i] whose cumulative interval
    [[weightBefore i, weightBefore i + weight)] holds [r]; equivalently the
    first position where the remainder the loop has computed is below the
    weight. With weights 20, 15, 15, 10 it is the 1st provider for
    [r = 18], the 2nd for [r = 25] and the 3rd for [r = 42]. *)
Theorem selectProvider_first_interval (providers : list Provider) (u r : float) :
  Forall (fun p => 0 < weight p) providers ->
  weightSum providers <= 2 ^ 53 ->
  r = (u * totalWeight providers)%float ->
  (0 <=? r)%float = true ->
  (r <? numberOf (weightSum providers))%float = true ->
  (exists (i : nat) (p : Provider),
      providers !! i = Some p /\
      selectProvider providers u = Some p /\
      ((numberOf (weightBefore providers i) <=? r)%float = true /\
       (r <? numberOf (weightBefore providers i + weight p))%float = true) /\
      (forall (j : nat) (q : Provider), (j < i)%nat -> providers !! j = Some q ->
         ~ ((numberOf (weightBefore providers j) <=? r)%float = true /\
            (r <? numberOf (weightBefore providers j + weight q))%float = true)) /\
      (remainderBefore providers r i <? numberOf (weight p))%float = true /\
      (forall (j : nat) (q : Provider), (j < i)%nat -> providers !! j = Some q ->
         (remainderBefore providers r j <? numberOf (weight q))%float = false))
  /\ (weight <$> providers = [20; 15; 15; 10] ->
      (r = 18%float -> selectProvider providers u = providers !! 0%nat) /\
      (r = 25%float -> selectProvider providers u = providers !! 1%nat) /\
      (r = 42%float -> selectProvider providers u = providers !! 2%nat)).
Proof.
  intros Hpos Hsum Hr H0 Hlt.
  pose proof (positive_nonneg providers Hpos) as Hall.
  pose proof (pow2_pos 1074 ltac:(lia)) as HK.
  split.
  - destruct (draw_holds providers r Hall Hsum H0 Hlt) as (R & HR & HRS).
    destruct (selectLoop_first providers r R HR Hall Hsum HRS)
      as (i & p & Hi & Hsel & Hlo & Hhi & Hfirst & Hrem).
    assert (Hbounds : forall j q, providers !! j = Some q ->
              0 <= weightBefore providers j <= 2 ^ 53 /\
              0 <= weightBefore providers j + weight q <= 2 ^ 53 /\
              0 <= weight q <= 2 ^ 53).
    { intros j q Hq. destruct (weightBefore_bounds providers j q Hall Hq).
      pose proof (proj1 (Forall_forall _ _) Hall q (list_elem_of_lookup_2 _ _ _ Hq)).
      cbv beta in *. lia. }
    exists i, p. unfold selectProvider, selectProviderVia. rewrite <- Hr, Hsel.
    destruct (Hbounds i p Hi) as (HWi & HWp & Hwp).
    split; [done|]. split; [done|]. split; [|split; [|split]].
    + rewrite (numberOf_leb _ r R), (numberOf_ltb _ r R) by done.
      split; [apply Z.leb_le | apply Z.ltb_lt]; lia.
    + intros j q Hj Hq [_ Hin]. destruct (Hbounds j q Hq) as (_ & HWq & _).
      rewrite (numberOf_ltb _ r R) in Hin by done. apply Z.ltb_lt in Hin.
      specialize (Hfirst j q Hj Hq). lia.
    + rewrite (numberOf_ltb _ _ _ Hwp (Hrem i ltac:(lia))). apply Z.ltb_lt. lia.
    + intros j q Hj Hq. destruct (Hbounds j q Hq) as (_ & _ & Hwq).
      rewrite (numberOf_ltb _ _ _ Hwq (Hrem j ltac:(lia))). apply Z.ltb_ge.
      specialize (Hfirst j q Hj Hq). lia.
  - intros Hw.
    destruct providers as [|a [|b [|c [|d [|]]]]]; try discriminate Hw.
    injection Hw as Ha Hb Hc Hd.
    unfold selectProvider, selectProviderVia. rewrite <- Hr.
    cbn [selectLoop]. rewrite Ha, Hb, Hc.
    repeat split; intros ->; reflexivity.
Qed.

(** C6. For a non-empty sequence of positive integer weights whose sum is
    at most [2^53] and a draw [r = Math.random() * totalWeight] with
    [0 <= r < sum], [selectProvider] returns one provider, a member of the
    sequence, from the [return] inside the loop: the final
    [return providers[0]] is not reached. *)
Theorem selectProvider_in_registry (providers : list Provider) (u r : float) :
  providers <> [] ->
  Forall (fun p => 0 < weight p) providers ->
  weightSum providers <= 2 ^ 53 ->
  r = (u * totalWeight providers)%float ->
  (0 <=? r)%float = true ->
  (r <? numberOf (weightSum providers))%float = true ->
  exists p : Provider,
    selectProviderVia providers u = InLoop p /\
    selectProvider providers u = Some p /\
    p ∈ providers.
Proof.
  intros _ Hpos Hsum Hr H0 Hlt.
  pose proof (positive_nonneg providers Hpos) as Hall.
  destruct (draw_holds providers r Hall Hsum H0 Hlt) as (R & HR & HRS).
  destruct (selectLoop_first providers r R HR Hall Hsum HRS) as (i & p & Hi & Hsel & _).
  exists p. unfold selectProvider, selectProviderVia. rewrite <- Hr, Hsel.
  repeat split. by apply list_elem_of_lookup_2 with i.
Qed.

End Selection.

(** ** The log *)

Lemma fetched_app (l1 l2 : list Event) : fetched (l1 ++ l2) = fetched l1 ++ fetched l2.
Proof. apply omap_app. Qed.

Lemma tried_app (l1 l2 : list Event) : tried (l1 ++ l2) = tried l1 ++ tried l2.
Proof. apply omap_app. Qed.

Lemma failovers_app (l1 l2 : list Event) :
  failovers (l1 ++ l2) = failovers l1 ++ failovers l2.
Proof. apply omap_app. Qed.

Lemma logged_logged (st : State) (l1 l2 : list Event) :
  logged (logged st l1) l2 = logged st (l1 ++ l2).
Proof. unfold logged. simpl. by rewrite app_assoc. Qed.

Lemma tried_attempts (request : Request) (cands : list Provider) :
  tried (cands ≫= attemptEvents request) = cands.
Proof.
  induction cands as [|c rest IH]; [done|].
  by rewrite bind_cons, tried_app, IH.
Qed.

Lemma fetched_attempts (request : Request) (cands : list Provider) :
  fetched (cands ≫= attemptEvents request) = upstreamFor request <$> cands.
Proof.
  induction cands as [|c rest IH]; [done|].
  by rewrite bind_cons, fetched_app, IH.
Qed.

Lemma failovers_attempts (request : Request) (cands : list Provider) :
  failovers (cands ≫= attemptEvents request) = [].
Proof.
  induction cands as [|c rest IH]; [done|].
  by rewrite bind_cons, failovers_app, IH.
Qed.


Lemma fetched_Trying (cands : list Provider) : fetched (Trying <$> cands) = [].
Proof.
  induction cands as [|c rest IH]; [done|].
  change (Trying <$> c :: rest) with ([Trying c] ++ (Trying <$> rest)).
  by rewrite fetched_app, IH.
Qed.

(** ** Failover candidates *)

Lemma filter_keeps_all {A} (f : A -> bool) (l : list A) :
  (forall x, x ∈ l -> f x = true) -> List.filter f l = l.
Proof.
  induction l as [|x rest IH]; intros Hall; simpl; [done|].
  rewrite (Hall x) by left. f_equal. apply IH. intros y Hy. apply Hall. by right.
Qed.

Lemma other_name_kept (failed q : Provider) :
  name q <> name failed -> negb (String.eqb (name q) (name failed)) = true.
Proof. intros Hne. apply negb_true_iff. by apply String.eqb_neq. Qed.

(** C7. In a registry with unique names, the failover candidates for a
    provider [P] of the registry are the registry with [P] taken out, in
    registry order; weights and the random draw play no part. A registry of
    8 providers leaves 7 candidates, none of them [P]. *)
Theorem candidates_registry_minus_failed (registry : list Provider) (P : Provider) :
  NoDup (name <$> registry) ->
  P ∈ registry ->
  exists before after : list Provider,
    registry = before ++ P :: after /\
    candidates registry P = before ++ after /\
    (forall st, fallbackProviders registry (Some P) st = (Returns (before ++ after), st)) /\
    (P ∉ candidates registry P) /\
    length (candidates registry P) = (length registry - 1)%nat /\
    (length registry = 8%nat -> length (candidates registry P) = 7%nat).
Proof.
  intros Hnodup Hin.
  apply list_elem_of_split in Hin as (before & after & ->).
  rewrite fmap_app, fmap_cons in Hnodup.
  apply NoDup_app in Hnodup as (_ & Hbefore & Hafter).
  apply NoDup_cons in Hafter as [Hafter _].
  assert (Hcands : candidates (before ++ P :: after) P = before ++ after).
  { unfold candidates. rewrite List.filter_app. simpl.
    rewrite String.eqb_refl. simpl.
    rewrite !filter_keeps_all; [done | |].
    - intros q Hq. apply other_name_kept. intros Heq. apply Hafter.
      rewrite <- Heq. by apply list_elem_of_fmap_2.
    - intros q Hq. apply other_name_kept. intros Heq.
      apply (Hbefore (name q)); [by apply list_elem_of_fmap_2|].
      rewrite Heq. left. }
  assert (Hlen : length (candidates (before ++ P :: after) P)
                 = (length (before ++ P :: after) - 1)%nat).
  { rewrite Hcands, !length_app. simpl. lia. }
  exists before, after. repeat split; [done | | | done | lia].
  - intros st. unfold fallbackProviders. fold (candidates (before ++ P :: after) P).
    rewrite Hcands. by destruct before.
  - unfold candidates. rewrite list_elem_of_In, filter_In.
    intros [_ Hkeep]. by rewrite String.eqb_refl in Hkeep.
Qed.

(** ** The failover loop *)

Section Failover.

Variable registry : list Provider.
Variable net : nat -> UpstreamRequest -> Outcome Response.
Variable request : Request.

Lemma consumed_false_read (st : State) :
  consumedByPrimary request = false ->
  String.eqb (method request) "POST" = true ->
  arrayBuffer request st = (Returns (default [] (req_body request)), st).
Proof.
  unfold consumedByPrimary, arrayBuffer. intros Hc Hp. rewrite Hp in Hc.
  destruct (req_body request) as [bytes|]; [|done].
  rewrite bool_decide_true in Hc by eauto. discriminate Hc.
Qed.

(** A 2xx status is one the [Response] constructor accepts. *)
Lemma ok_statusInRange (r : Response) : ok r = true -> statusInRange (status r) = true.
Proof.
  unfold ok, statusInRange. rewrite !andb_true_iff, !Z.leb_le. lia.
Qed.

Lemma newResponse_ok (r : Response) (h : Headers) (st : State) :
  ok r = true ->
  newResponse (resp_body r) (status r) (statusText r) h st
  = (Returns {| status := status r; statusText := statusText r;
                resp_headers := h; resp_body := resp_body r |}, st).
Proof. intros Hok. unfold newResponse. by rewrite (ok_statusInRange r Hok). Qed.

(** An attempt whose body read cannot throw issues its upstream call. *)
Lemma fallbackAttempt_call (c : Provider) (st : State) :
  consumedByPrimary request = false ->
  fallbackAttempt net request (req_url request) c st =
    match net (length (fetched (log st))) (upstreamFor request c) with
    | Returns r =>
        (Returns (if ok r then Some (fallbackResponse r) else None),
         logged st [Fetched (upstreamFor request c)])
    | Throws e => (Throws e, logged st [Fetched (upstreamFor request c)])
    end.
Proof.
  intros Hc. unfold fallbackAttempt, upstreamFor, bind, fetch, logged.
  destruct (String.eqb (method request) "POST") eqn:Hp.
  - rewrite (consumed_false_read st Hc Hp). simpl.
    destruct (net _ _) as [r|e]; [|done].
    destruct (ok r) eqn:Hok; [|done]. by rewrite (newResponse_ok r _ _ Hok).
  - simpl. destruct (net _ _) as [r|e]; [|done].
    destruct (ok r) eqn:Hok; [|done]. by rewrite (newResponse_ok r _ _ Hok).
Qed.

(** An attempt that re-reads a used body throws before its upstream call. *)
Lemma fallbackAttempt_reread (c : Provider) (st : State) :
  consumedByPrimary request = true ->
  bodyUsed st = true ->
  fallbackAttempt net request (req_url request) c st = (Throws TypeError, st).
Proof.
  unfold consumedByPrimary. intros Hc Hused.
  apply andb_true_iff in Hc as [Hp Hb].
  apply bool_decide_eq_true in Hb as [bytes Hb].
  unfold fallbackAttempt, bind, arrayBuffer. by rewrite Hp, Hb, Hused.
Qed.

(** One turn of the loop: the [return] ends it, a response that is not
    [ok] and a caught exception both move on to the next provider. *)
Lemma fallbackLoop_cons (url' : URL) (c : Provider) (rest : list Provider) (st : State) :
  fallbackLoop net request url' (c :: rest) st =
    match fallbackAttempt net request url' c (logged st [Trying c]) with
    | (Returns (Some response), st') => (Returns response, st')
    | (Returns None, st') => fallbackLoop net request url' rest st'
    | (Throws _, st') => fallbackLoop net request url' rest st'
    end.
Proof.
  cbn [fallbackLoop]. unfold bind, emit, try_catch, ret, logged.
  by destruct (fallbackAttempt _ _ _ _ _) as [[[response|]|e] st'].
Qed.

Lemma calls_after_Trying (st : State) (c : Provider) :
  length (fetched (log (logged st [Trying c]))) = length (fetched (log st)).
Proof. unfold logged. simpl. rewrite fetched_app. simpl. by rewrite app_nil_r. Qed.

Lemma calls_after_attempt (st : State) (c : Provider) :
  length (fetched (log (logged st (attemptEvents request c))))
  = S (length (fetched (log st))).
Proof. unfold logged. simpl. rewrite fetched_app, length_app. simpl. lia. Qed.


(** The candidates before the first success are called and passed over; the
    first success is returned and the loop stops there. *)
Lemma fallbackLoop_first_ok (pre : list Provider) :
  forall (st : State) (c : Provider) (post : list Provider) (r : Response),
    consumedByPrimary request = false ->
    (forall (i : nat) (c' : Provider), pre !! i = Some c' ->
       unsuccessful (net (length (fetched (log st)) + i) (upstreamFor request c'))) ->
    net (length (fetched (log st)) + length pre) (upstreamFor request c) = Returns r ->
    ok r = true ->
    fallbackLoop net request (req_url request) (pre ++ c :: post) st
    = (Returns (fallbackResponse r),
       logged st ((pre ≫= attemptEvents request) ++ attemptEvents request c)).
Proof.
  induction pre as [|c0 rest IH]; intros st c post r Hc Hall Hnet Hok.
  - rewrite app_nil_l. cbn [length] in Hnet. rewrite Nat.add_0_r in Hnet.
    rewrite fallbackLoop_cons, (fallbackAttempt_call c _ Hc), calls_after_Trying.
    by rewrite Hnet, Hok, logged_logged.
  - change ((c0 :: rest) ++ c :: post) with (c0 :: (rest ++ c :: post)).
    rewrite fallbackLoop_cons, (fallbackAttempt_call c0 _ Hc), calls_after_Trying.
    pose proof (Hall 0%nat c0 eq_refl) as Hfirst. rewrite Nat.add_0_r in Hfirst.
    assert (Hrest : forall (i : nat) (c' : Provider), rest !! i = Some c' ->
              unsuccessful (net (length (fetched (log (logged st (attemptEvents request c0)))) + i)
                              (upstreamFor request c'))).
    { intros i c' Hi. rewrite calls_after_attempt.
      specialize (Hall (S i) c' Hi). by rewrite Nat.add_succ_r in Hall. }
    assert (Hnet' : net (length (fetched (log (logged st (attemptEvents request c0)))) + length rest)
                        (upstreamFor request c) = Returns r).
    { rewrite calls_after_attempt. simpl in Hnet. by rewrite Nat.add_succ_r in Hnet. }
    rewrite bind_cons, <- app_assoc, <- logged_logged.
    destruct (net (length (fetched (log st))) _) as [r0|e]; simpl in Hfirst.
    + rewrite Hfirst, logged_logged. by apply IH.
    + rewrite logged_logged. by apply IH.
Qed.

(** Every re-read of a used body throws: every candidate is passed over
    without an upstream call. *)
Lemma fallbackLoop_reread (cands : list Provider) :
  forall st : State,
    consumedByPrimary request = true ->
    bodyUsed st = true ->
    fallbackLoop net request (req_url request) cands st
    = (Returns unavailable, logged st (Trying <$> cands)).
Proof.
  induction cands as [|c rest IH]; intros st Hc Hused.
  - unfold logged. simpl. rewrite app_nil_r. by destruct st.
  - rewrite fallbackLoop_cons, (fallbackAttempt_reread c _ Hc) by done.
    rewrite IH by done. rewrite logged_logged. reflexivity.
Qed.

(** Whatever the state and the network, an attempt logs nothing, or the
    upstream call for its provider. *)
Lemma fallbackAttempt_log (c : Provider) (st : State) :
  let st' := (fallbackAttempt net request (req_url request) c st).2 in
  log st' = log st \/ log st' = log st ++ [Fetched (upstreamFor request c)].
Proof.
  unfold fallbackAttempt, upstreamFor, bind, ret, fetch, arrayBuffer.
  destruct (String.eqb (method request) "POST"); simpl.
  - destruct (req_body request) as [bytes|]; simpl.
    + destruct (bodyUsed st); simpl; [by left|].
      right. destruct (net _ _) as [r|e]; [|done].
      destruct (ok r) eqn:Hok; [|done]. by rewrite (newResponse_ok r _ _ Hok).
    + right. destruct (net _ _) as [r|e]; [|done].
      destruct (ok r) eqn:Hok; [|done]. by rewrite (newResponse_ok r _ _ Hok).
  - right. destruct (net _ _) as [r|e]; [|done].
    destruct (ok r) eqn:Hok; [|done]. by rewrite (newResponse_ok r _ _ Hok).
Qed.

(** Whatever the state and the network, the loop logs loop turns and
    upstream calls for its candidates, and nothing else. *)
Lemma fallbackLoop_log (cands : list Provider) :
  forall st : State,
    exists events : list Event,
      log (fallbackLoop net request (req_url request) cands st).2 = log st ++ events /\
      failovers events = [] /\
      Forall (fun up => exists c, c ∈ cands /\ up = upstreamFor request c) (fetched events).
Proof.
  induction cands as [|c rest IH]; intros st.
  - exists []. simpl. by rewrite app_nil_r.
  - rewrite fallbackLoop_cons.
    pose proof (fallbackAttempt_log c (logged st [Trying c])) as Hlog.
    destruct (fallbackAttempt _ _ _ _ _) as [out st'] eqn:Hrun. simpl in Hlog.
    assert (Hstep : exists ev, log st' = log st ++ ev /\ failovers ev = [] /\
              Forall (fun up => exists c', c' ∈ c :: rest /\ up = upstreamFor request c')
                     (fetched ev)).
    { destruct Hlog as [-> | ->].
      - exists [Trying c]. repeat split. constructor.
      - exists (attemptEvents request c). rewrite <- app_assoc. repeat split.
        repeat constructor. exists c. split; [left | done]. }
    destruct Hstep as (ev & Hev & Hfo & Hfe).
    assert (Hnext : exists events,
              log (fallbackLoop net request (req_url request) rest st').2 = log st ++ events /\
              failovers events = [] /\
              Forall (fun up => exists c', c' ∈ c :: rest /\ up = upstreamFor request c')
                     (fetched events)).
    { destruct (IH st') as (ev' & Hev' & Hfo' & Hfe').
      exists (ev ++ ev'). rewrite Hev', Hev, app_assoc, failovers_app, fetched_app, Hfo, Hfo'.
      repeat split. apply Forall_app. split; [done|].
      eapply Forall_impl; [exact Hfe'|]. intros up (c' & Hc' & ->).
      exists c'. split; [by right | done]. }
    destruct out as [[response|]|e]; [|done|done].
    by exists ev.
Qed.

End Failover.

(** ** The handler *)

Section Handler.

Variable registry : list Provider.
Variable net : nat -> UpstreamRequest -> Outcome Response.
Variable u : float.
Variable now : Z.
Variable toUTCString : Z -> string.
Variable landingHtml : Request -> string.
Variable encodingHtml : string.
Variable request : Request.

Local Abbreviation handle :=
  (handleRequest registry net u now toUTCString landingHtml encodingHtml).

(** A DNS query passes the checks and reaches the selection. *)
Lemma handleRequest_dnsQuery (st : State) :
  dnsQuery request ->
  handle request st =
    (let! selectedProvider := selectProvider registry u in
     try_catch (primaryAttempt net now toUTCString request (req_url request)
                  (String.eqb (method request) "POST") selectedProvider)
               (fun _ => tryFallbackProviders registry net request (req_url request)
                           selectedProvider)) st.
Proof.
  intros [Hpath [[Hget Hdns]|Hpost]]; unfold handle, handleRequest.
  - by rewrite Hpath, Hget, Hdns.
  - by rewrite Hpath, Hpost.
Qed.

Lemma selectProvider_nonempty :
  registry <> [] -> exists p, Select.selectProvider registry u = Some p.
Proof.
  intros Hne. unfold Select.selectProvider, Select.selectProviderVia.
  destruct (Select.selectLoop _ _) as [p|]; [by exists p|].
  destruct registry as [|p rest]; [done | by exists p].
Qed.

(** The primary attempt on a fresh request: the body is read, the upstream
    call is issued, and its answer decides between [return] and [catch]. *)
Lemma primaryAttempt_fresh (p : Provider) (st : State) :
  bodyUsed st = false ->
  primaryAttempt net now toUTCString request (req_url request)
    (String.eqb (method request) "POST") (Some p) st =
    let st' := {| bodyUsed := consumedByPrimary request;
                  log := log st ++ [Fetched (upstreamFor request p)] |} in
    match net (length (fetched (log st))) (upstreamFor request p) with
    | Returns r =>
        (if statusInRange (status r) then Returns (primaryResponse now toUTCString r)
         else Throws RangeError, st')
    | Throws e => (Throws e, st')
    end.
Proof.
  intros Hfresh.
  unfold primaryAttempt, upstreamFor, consumedByPrimary, bind, ret, fetch, arrayBuffer,
    newResponse, throw.
  destruct (String.eqb (method request) "POST") eqn:Hp; simpl.
  - destruct (req_body request) as [bytes|]; rewrite ?Hfresh; simpl;
      (destruct (net _ _) as [r|e]; [|done]); by destruct (statusInRange (status r)).
  - rewrite Hfresh. destruct (net _ _) as [r|e]; [|done].
    by destruct (statusInRange (status r)).
Qed.

(** The run of the handler on a DNS query, up to the failover loop. *)
Lemma handleRequest_run (p : Provider) :
  dnsQuery request ->
  Select.selectProvider registry u = Some p ->
  handle request initial =
    let st1 := {| bodyUsed := consumedByPrimary request;
                  log := [Selected (Some p); Fetched (upstreamFor request p)] |} in
    match primaryAnswer (net 0 (upstreamFor request p)) with
    | Some r => (Returns (primaryResponse now toUTCString r), st1)
    | None =>
        fallbackLoop net request (req_url request) (candidates registry p)
          (logged st1 [Failover (Some p)])
    end.
Proof.
  intros Hq Hsel. rewrite (handleRequest_dnsQuery _ Hq).
  unfold bind at 1, selectProvider, emit, ret, try_catch. rewrite Hsel. simpl.
  rewrite primaryAttempt_fresh by done. simpl. unfold primaryAnswer.
  destruct (net 0%nat _) as [r|e]; [destruct (statusInRange (status r)); [done|]|];
    unfold tryFallbackProviders, bind, emit, fallbackProviders, candidates, logged, ret;
    simpl; by destruct registry.
Qed.

(** Anything that is not a DNS query is answered at once: the state is
    left as it was. *)
Lemma handleRequest_answered (st : State) :
  ~ dnsQuery request ->
  exists response, handle request st = (Returns response, st).
Proof.
  intros Hno. unfold handleRequest.
  destruct (String.eqb (pathname (req_url request)) "/"); [by eexists|].
  destruct (String.eqb (pathname (req_url request)) "/dns-encoding"); [by eexists|].
  destruct (String.eqb (method request) "OPTIONS"); [by eexists|].
  destruct (String.eqb (pathname (req_url request)) "/dns-query") eqn:Hpath;
    simpl; [|by eexists].
  apply String.eqb_eq in Hpath.
  destruct (String.eqb (method request) "GET") eqn:Hget;
    destruct (String.eqb (method request) "POST") eqn:Hpost; simpl;
    try (destruct (searchParams_has (req_url request) "dns") eqn:Hdns; simpl);
    try (by eexists); exfalso; apply Hno; split; try done.
  all: try (apply String.eqb_eq in Hget); try (apply String.eqb_eq in Hpost); eauto.
Qed.

Lemma selectProvider_elem (p : Provider) :
  Select.selectProvider registry u = Some p -> p ∈ registry.
Proof.
  unfold Select.selectProvider, Select.selectProviderVia.
  generalize (u * Select.totalWeight registry)%float as random.
  intros random.
  destruct (Select.selectLoop registry random) as [q|] eqn:Hloop.
  - intros [= <-]. revert random Hloop.
    induction registry as [|p0 rest IH]; intros random; simpl; [done|].
    destruct (_ <? _)%float.
    + intros [= <-]. by left.
    + intros Hrest. right. by eapply IH.
  - destruct registry as [|p0 rest]; simpl; [done|].
    intros [= <-]. by left.
Qed.

Lemma candidates_elem (failed c : Provider) :
  c ∈ candidates registry failed -> c ∈ registry.
Proof.
  unfold candidates. rewrite !list_elem_of_In, filter_In. tauto.
Qed.

(** Every upstream call the handler issues is the translation of the
    inbound request for a provider of the registry. *)
Lemma handleRequest_fetched :
  Forall (fun up => exists c, c ∈ registry /\ up = upstreamFor request c)
         (fetched (log (handle request initial).2)).
Proof.
  destruct (decide (dnsQuery request)) as [Hq|Hno].
  - destruct (Select.selectProvider registry u) as [p|] eqn:Hsel.
    + rewrite (handleRequest_run p Hq Hsel). cbv zeta.
      pose proof (selectProvider_elem p Hsel) as Hp.
      destruct (primaryAnswer (net 0%nat _)) as [r|].
      * repeat constructor. by exists p.
      * destruct (fallbackLoop_log net request (candidates registry p)
                    (logged {| bodyUsed := consumedByPrimary request;
                               log := [Selected (Some p); Fetched (upstreamFor request p)] |}
                            [Failover (Some p)])) as (ev & -> & _ & Hfe).
        unfold logged; cbn [log bodyUsed]. rewrite !fetched_app.
        apply Forall_app. split; [repeat constructor; by exists p|].
        eapply Forall_impl; [exact Hfe|].
        intros up (c & Hc & ->). exists c. split; [|done].
        by eapply candidates_elem.
    + rewrite (handleRequest_dnsQuery _ Hq).
      unfold bind at 1, selectProvider, emit, ret, try_catch. rewrite Hsel. simpl.
      unfold tryFallbackProviders, bind, emit, fallbackProviders, ret.
      destruct registry; simpl; constructor.
  - destruct (handleRequest_answered initial Hno) as [response ->]. constructor.
Qed.

(** *** The forced response headers *)

Lemma forcedHeaders_inserts (h : Headers) :
  forcedHeaders h =
    <["cache-control" := "public, max-age=300"]>
      (<["access-control-allow-headers" := "Content-Type, Accept"]>
         (<["access-control-allow-methods" := "GET, POST, OPTIONS"]>
            (<["access-control-allow-origin" := "*"]> h))).
Proof. reflexivity. Qed.



Lemma primaryResponse_carries (r : Response) :
  carriesForcedHeaders (resp_headers (primaryResponse now toUTCString r)).
Proof.
  unfold primaryResponse. cbn [resp_headers]. rewrite forcedHeaders_inserts.
  unfold carriesForcedHeaders, headers_get, headers_set. simpl.
  repeat split; by simplify_map_eq.
Qed.

(** *** From the primary attempt to the failover loop *)

Lemma handleRequest_failover (p : Provider) (e : Exn) :
  dnsQuery request ->
  Select.selectProvider registry u = Some p ->
  net 0%nat (upstreamFor request p) = Throws e ->
  handle request initial =
    fallbackLoop net request (req_url request) (candidates registry p) (afterPrimary request p).
Proof.
  intros Hq Hsel Hnet. rewrite (handleRequest_run p Hq Hsel). cbv zeta. by rewrite Hnet.
Qed.

(** The primary call is answered with a status the [Response] constructor
    rejects: the RangeError is caught like an exception of the call. *)
Lemma handleRequest_rejected (p : Provider) (r : Response) :
  dnsQuery request ->
  Select.selectProvider registry u = Some p ->
  net 0%nat (upstreamFor request p) = Returns r ->
  statusInRange (status r) = false ->
  handle request initial =
    fallbackLoop net request (req_url request) (candidates registry p) (afterPrimary request p).
Proof.
  intros Hq Hsel Hnet Hout. rewrite (handleRequest_run p Hq Hsel). cbv zeta.
  rewrite Hnet. simpl. by rewrite Hout.
Qed.

(** The primary call is answered with a status the constructor accepts:
    the answer is relayed and the handler is done. *)
Lemma handleRequest_relayed (p : Provider) (r : Response) :
  dnsQuery request ->
  Select.selectProvider registry u = Some p ->
  net 0%nat (upstreamFor request p) = Returns r ->
  statusInRange (status r) = true ->
  handle request initial =
    (Returns (primaryResponse now toUTCString r),
     {| bodyUsed := consumedByPrimary request;
        log := [Selected (Some p); Fetched (upstreamFor request p)] |}).
Proof.
  intros Hq Hsel Hnet Hin. rewrite (handleRequest_run p Hq Hsel). cbv zeta.
  rewrite Hnet. simpl. by rewrite Hin.
Qed.

Lemma statusInRange_true (code : Z) : statusInRange code = true <-> 200 <= code <= 599.
Proof. unfold statusInRange. rewrite andb_true_iff, !Z.leb_le. lia. Qed.

Lemma statusInRange_false (code : Z) :
  statusInRange code = false <-> ~ (200 <= code <= 599).
Proof.
  rewrite <- statusInRange_true. by destruct (statusInRange code).
Qed.

(** Primary throws, the candidates before [c] fail, [c] answers 2xx. *)
Lemma failover_first_success (p : Provider) (e : Exn)
    (pre : list Provider) (c : Provider) (post : list Provider) (r : Response) :
  dnsQuery request ->
  Select.selectProvider registry u = Some p ->
  net 0%nat (upstreamFor request p) = Throws e ->
  candidates registry p = pre ++ c :: post ->
  (forall (i : nat) (c' : Provider), pre !! i = Some c' ->
     unsuccessful (candidateAnswer net request i c')) ->
  candidateAnswer net request (length pre) c = Returns r ->
  ok r = true ->
  handle request initial =
    (Returns (fallbackResponse r),
     logged (afterPrimary request p) ((pre ≫= attemptEvents request) ++ attemptEvents request c)).
Proof.
  intros Hq Hsel Hnet Hcands Hpre Hc Hok.
  rewrite (handleRequest_failover p e Hq Hsel Hnet), Hcands.
  unfold candidateAnswer in Hpre, Hc.
  destruct (consumedByPrimary request) eqn:Hcons; [discriminate Hc|].
  by apply fallbackLoop_first_ok.
Qed.


(** *** Routing and failover properties *)

(** C1. For a GET or POST to [/dns-query] over a non-empty registry, the
    handler enters failover exactly when its primary attempt throws: the
    first upstream call, the primary one, throws, or it is answered with a
    status outside 200..599, which the [Response] constructor rejects with
    a RangeError. When the primary call is answered with a status in
    200..599, 2xx or not, the answer is returned with the forced headers and
    there is no failover and no further upstream call. *)
Theorem failover_iff_primary_attempt_throws :
  registry <> [] ->
  pathname (req_url request) = "/dns-query" ->
  method request = "GET" \/ method request = "POST" ->
  (failovers (log (handle request initial).2) <> [] <->
   exists up, fetched (log (handle request initial).2) !! 0%nat = Some up /\
              ((exists e, net 0%nat up = Throws e) \/
               (exists r, net 0%nat up = Returns r /\ ~ (200 <= status r <= 599))))
  /\ (forall up r,
        fetched (log (handle request initial).2) !! 0%nat = Some up ->
        net 0%nat up = Returns r ->
        200 <= status r <= 599 ->
        exists out,
          (handle request initial).1 = Returns out /\
          passesThrough r out /\
          carriesForcedHeaders (resp_headers out) /\
          failovers (log (handle request initial).2) = [] /\
          fetched (log (handle request initial).2) = [up]).
Proof.
  intros Hne Hpath Hmethod.
  destruct (decide (dnsQuery request)) as [Hq|Hno].
  - destruct (selectProvider_nonempty Hne) as [p Hsel].
    destruct (net 0%nat (upstreamFor request p)) as [r|e] eqn:Hnet.
    + destruct (statusInRange (status r)) eqn:Hin.
      * rewrite (handleRequest_relayed p r Hq Hsel Hnet Hin). simpl.
        apply statusInRange_true in Hin. split.
        -- split; [done|].
           intros (up & [= <-] & [[e He] | (r' & Hr' & Hout)]); [congruence|].
           rewrite Hnet in Hr'. injection Hr' as <-. by destruct Hout.
        -- intros up r' [= <-] Hr' _. rewrite Hnet in Hr'. injection Hr' as <-.
           exists (primaryResponse now toUTCString r).
           split; [done|]. split; [done|]. split; [|done].
           apply primaryResponse_carries.
      * rewrite (handleRequest_rejected p r Hq Hsel Hnet Hin).
        apply statusInRange_false in Hin.
        destruct (fallbackLoop_log net request (candidates registry p) (afterPrimary request p))
          as (ev & -> & Hfo & _).
        unfold afterPrimary, logged; cbn [log]. rewrite !failovers_app, !fetched_app. simpl.
        split.
        -- split; [|done]. intros _. exists (upstreamFor request p).
           split; [done|]. right. by exists r.
        -- intros up r' [= <-] Hr' Hrange. rewrite Hnet in Hr'. injection Hr' as <-.
           by destruct Hin.
    + rewrite (handleRequest_failover p e Hq Hsel Hnet).
      destruct (fallbackLoop_log net request (candidates registry p) (afterPrimary request p))
        as (ev & -> & Hfo & _).
      unfold afterPrimary, logged; cbn [log]. rewrite !failovers_app, !fetched_app. simpl.
      split.
      * split; [|done]. intros _. exists (upstreamFor request p).
        split; [done|]. left. by exists e.
      * intros up r [= <-] Hr. congruence.
  - destruct (handleRequest_answered initial Hno) as [response ->]. simpl. split.
    + split; [done|]. by intros (up & ? & _).
    + by intros up r ?.
Qed.

(** C2. When the primary call throws, the loop goes through the candidates
    in order: those before the first one whose attempt is answered 2xx are
    tried and passed over (their attempt throws or is answered with another
    status), that first one is tried, its response is returned, and no later
    candidate is tried or called. *)
Theorem failover_returns_first_success (p : Provider) (e : Exn)
    (pre : list Provider) (c : Provider) (post : list Provider) (r : Response) :
  dnsQuery request ->
  Select.selectProvider registry u = Some p ->
  net 0%nat (upstreamFor request p) = Throws e ->
  candidates registry p = pre ++ c :: post ->
  (forall (i : nat) (c' : Provider), pre !! i = Some c' ->
     unsuccessful (candidateAnswer net request i c')) ->
  candidateAnswer net request (length pre) c = Returns r ->
  ok r = true ->
  (handle request initial).1 = Returns (fallbackResponse r) /\
  passesThrough r (fallbackResponse r) /\
  tried (log (handle request initial).2) = pre ++ [c] /\
  fetched (log (handle request initial).2)
    = upstreamFor request p :: (upstreamFor request <$> pre ++ [c]) /\
  failovers (log (handle request initial).2) = [Some p].
Proof.
  intros Hq Hsel Hnet Hcands Hpre Hc Hok.
  rewrite (failover_first_success p e pre c post r) by done.
  unfold afterPrimary, logged; cbn [log fst snd].
  rewrite !tried_app, !fetched_app, !failovers_app, tried_attempts, fetched_attempts,
    failovers_attempts, fmap_app.
  by repeat split.
Qed.



(** C10. A GET to [/dns-query] without a [dns] parameter is answered 400
    at once: no provider is selected and no upstream call is issued. *)
Theorem get_without_dns_400 :
  pathname (req_url request) = "/dns-query" ->
  method request = "GET" ->
  searchParams_has (req_url request) "dns" = false ->
  handle request initial
    = (Returns (textResponse "Missing DNS query parameter" 400), initial) /\
  status (textResponse "Missing DNS query parameter" 400) = 400 /\
  selections (log (handle request initial).2) = [] /\
  fetched (log (handle request initial).2) = [].
Proof.
  intros Hpath Hget Hdns.
  assert (Hrun : handle request initial
                 = (Returns (textResponse "Missing DNS query parameter" 400), initial)).
  { unfold handleRequest. by rewrite Hpath, Hget, Hdns. }
  by rewrite Hrun.
Qed.

(** The request built for a provider is its translation. *)
Lemma translates_upstreamFor (c : Provider) : translates request c (upstreamFor request c).
Proof.
  unfold translates, upstreamFor. cbn [up_url up_method up_redirect up_headers up_body].
  split; [done|]. split; [done|]. split; [done|]. split; [|split].
  - unfold upstreamHeaders, headers_get, headers_set. by simplify_map_eq.
  - intros key Hua Hct Hacc. unfold upstreamHeaders, headers_get, headers_set.
    destruct (String.eqb (method request) "POST"); by rewrite !lookup_insert_ne.
  - split; intros Hmethod; rewrite Hmethod; by split.
Qed.

(** The first turn of the loop over a body that can be read: the first
    candidate is called before anything else. *)
Lemma fallbackLoop_first_call (c : Provider) (rest : list Provider) (st : State) :
  consumedByPrimary request = false ->
  exists calls,
    fetched (log (fallbackLoop net request (req_url request) (c :: rest) st).2)
    = fetched (log st) ++ upstreamFor request c :: calls.
Proof.
  intros Hc. rewrite fallbackLoop_cons, (fallbackAttempt_call net request c _ Hc).
  assert (Hnext : exists calls,
            fetched (log (fallbackLoop net request (req_url request) rest
                            (logged (logged st [Trying c])
                                    [Fetched (upstreamFor request c)])).2)
            = fetched (log st) ++ upstreamFor request c :: calls).
  { destruct (fallbackLoop_log net request rest
                (logged (logged st [Trying c]) [Fetched (upstreamFor request c)]))
      as (ev & -> & _).
    exists (fetched ev). unfold logged; cbn [log]. rewrite !fetched_app. simpl.
    by rewrite app_nil_r, <- app_assoc. }
  destruct (net _ _) as [r|e]; [destruct (ok r)|]; try exact Hnext.
  exists []. unfold logged; cbn [log snd]. rewrite !fetched_app. simpl.
  by rewrite app_nil_r.
Qed.

(** C8. For a DNS query the handler issues an upstream request for the
    selected provider, and that request is the translation of the inbound
    one: its URL is the provider's [url] followed by the inbound query
    string as it came; its headers are a copy of the inbound headers with
    [Content-Type: application/dns-message] set for POST,
    [Accept: application/dns-message] set for GET, and the proxy's
    [User-Agent] set in both cases; its body is the inbound body for POST
    and absent for GET. Every later upstream request is the translation for
    a failover candidate, and when failover starts with a body that can
    still be read, the request for the first candidate is issued. *)
Theorem upstream_request_translation (p : Provider) :
  dnsQuery request ->
  Select.selectProvider registry u = Some p ->
  exists (up : UpstreamRequest) (calls : list UpstreamRequest),
    fetched (log (handle request initial).2) = up :: calls /\
    translates request p up /\
    (forall bytes, method request = "POST" -> req_body request = Some bytes ->
       up_body up = Some bytes) /\
    Forall (fun up' => exists c, c ∈ candidates registry p /\ translates request c up')
           calls /\
    (forall c rest,
       failovers (log (handle request initial).2) <> [] ->
       consumedByPrimary request = false ->
       candidates registry p = c :: rest ->
       exists up' calls', calls = up' :: calls' /\ translates request c up').
Proof.
  intros Hq Hsel.
  assert (Hbody : forall bytes, method request = "POST" -> req_body request = Some bytes ->
            up_body (upstreamFor request p) = Some bytes).
  { intros bytes Hpost Hb. unfold upstreamFor. by rewrite Hpost, Hb. }
  rewrite (handleRequest_run p Hq Hsel). cbv zeta.
  destruct (primaryAnswer (net 0%nat _)) as [r|].
  - exists (upstreamFor request p), []. cbn [log snd].
    split; [done|]. split; [apply translates_upstreamFor|]. split; [done|].
    split; [constructor|]. by intros c rest Hfo.
  - destruct (fallbackLoop_log net request (candidates registry p)
                (logged {| bodyUsed := consumedByPrimary request;
                           log := [Selected (Some p); Fetched (upstreamFor request p)] |}
                        [Failover (Some p)])) as (ev & Hlog & _ & Hfe).
    exists (upstreamFor request p), (fetched ev). rewrite Hlog.
    unfold logged; cbn [log]. rewrite !fetched_app.
    split; [done|]. split; [apply translates_upstreamFor|]. split; [done|]. split.
    + eapply Forall_impl; [exact Hfe|]. intros up' (c & Hc & ->).
      exists c. split; [done | apply translates_upstreamFor].
    + intros c rest _ Hcons Hcands. rewrite Hcands in Hlog.
      destruct (fallbackLoop_first_call c rest
                  (logged {| bodyUsed := consumedByPrimary request;
                             log := [Selected (Some p); Fetched (upstreamFor request p)] |}
                          [Failover (Some p)]) Hcons) as (calls' & Hcalls).
      rewrite Hlog in Hcalls. unfold logged in Hcalls; cbn [log] in Hcalls.
      rewrite !fetched_app in Hcalls. simpl in Hcalls.
      injection Hcalls as Hcalls.
      exists (upstreamFor request c), calls'.
      split; [done | apply translates_upstreamFor].
Qed.


End Handler.

(** ** The worker on sample requests *)

Lemma dnsQuery_get : dnsQuery Sample.getRequest.
Proof. split; [reflexivity | left; split; reflexivity]. Defined.

Lemma positive_weights_abcd : Forall (fun p => 0 < weight p) Sample.abcd.
Proof. repeat constructor. Defined.

Lemma positive_weights_registry : Forall (fun p => 0 < weight p) DOH_PROVIDERS.
Proof. repeat constructor. Defined.

Lemma weightSum_abcd : Select.weightSum Sample.abcd <= 2 ^ 53.
Proof. discriminate. Defined.

Lemma weightSum_registry : Select.weightSum DOH_PROVIDERS <= 2 ^ 53.
Proof. discriminate. Defined.

Lemma selectProvider_first_interval_witness :
  (exists (i : nat) (p : Provider),
     Sample.abcd !! i = Some p /\
     Select.selectProvider Sample.abcd Sample.draw18 = Some p /\
     (numberOf (Select.weightBefore Sample.abcd i) <=? 18)%float = true /\
     (18 <? numberOf (Select.weightBefore Sample.abcd i + weight p))%float = true) /\
  Select.selectProvider Sample.abcd Sample.draw18 = Sample.abcd !! 0%nat.
Proof.
  destruct (selectProvider_first_interval Sample.abcd Sample.draw18 18%float
              positive_weights_abcd weightSum_abcd)
    as [(i & p & Hi & Hsel & [Hlo Hhi] & _) Hexample].
  - reflexivity.
  - reflexivity.
  - reflexivity.
  - split.
    + exists i, p. repeat split; assumption.
    + destruct (Hexample eq_refl) as (H18 & _). exact (H18 eq_refl).
Defined.

(** The draws 25 and 42 of the example are values the product takes. *)
Example draws_of_example :
  (Sample.draw18 * Select.totalWeight Sample.abcd)%float = 18%float /\
  (Sample.draw25 * Select.totalWeight Sample.abcd)%float = 25%float /\
  (Sample.draw42 * Select.totalWeight Sample.abcd)%float = 42%float /\
  Select.selectProvider Sample.abcd Sample.draw25 = Sample.abcd !! 1%nat /\
  Select.selectProvider Sample.abcd Sample.draw42 = Sample.abcd !! 2%nat.
Proof. repeat split; reflexivity. Qed.

(** The product is rounded before the loop starts: over the configured
    registry [Math.random() = 0.19999999999999998] gives the draw 20, the
    lower end of the second interval, and Google is selected. *)
Example draw_rounds_to_boundary :
  (0x1.9999999999999p-3 <? 0x1.999999999999ap-3)%float = true /\
  (0x1.9999999999999p-3 * Select.totalWeight DOH_PROVIDERS)%float = 20%float /\
  Select.selectProvider DOH_PROVIDERS 0x1.9999999999999p-3%float = Some Sample.google.
Proof. repeat split; reflexivity. Qed.

Lemma selectProvider_in_registry_witness :
  exists p : Provider,
    Select.selectProviderVia DOH_PROVIDERS 0.25%float = Select.InLoop p /\
    Select.selectProvider DOH_PROVIDERS 0.25%float = Some p /\
    p ∈ DOH_PROVIDERS.
Proof.
  refine (selectProvider_in_registry DOH_PROVIDERS 0.25%float 25%float _
            positive_weights_registry weightSum_registry _ _ _).
  - discriminate.
  - reflexivity.
  - reflexivity.
  - reflexivity.
Defined.

Lemma registry_names_unique : NoDup (name <$> DOH_PROVIDERS).
Proof. apply (bool_decide_unpack _). vm_compute. exact I. Defined.

Lemma candidates_registry_minus_failed_witness :
  exists before after : list Provider,
    DOH_PROVIDERS = before ++ Sample.quad9 :: after /\
    candidates DOH_PROVIDERS Sample.quad9 = before ++ after /\
    (forall st, fallbackProviders DOH_PROVIDERS (Some Sample.quad9) st
                = (Returns (before ++ after), st)) /\
    (Sample.quad9 ∉ candidates DOH_PROVIDERS Sample.quad9) /\
    length (candidates DOH_PROVIDERS Sample.quad9) = (length DOH_PROVIDERS - 1)%nat /\
    (length DOH_PROVIDERS = 8%nat ->
     length (candidates DOH_PROVIDERS Sample.quad9) = 7%nat).
Proof.
  refine (candidates_registry_minus_failed DOH_PROVIDERS Sample.quad9
            registry_names_unique _).
  apply list_elem_of_lookup_2 with 2%nat. reflexivity.
Defined.

Lemma select_google : Select.selectProvider DOH_PROVIDERS 0.25%float = Some Sample.google.
Proof. reflexivity. Defined.

Lemma failover_iff_primary_attempt_throws_witness :
  (handleRequest DOH_PROVIDERS Sample.notFound 0.25%float 0 Sample.utc (fun _ => "") ""
     Sample.getRequest initial).1
  = Returns (primaryResponse 0 Sample.utc (Sample.answer 404)).
Proof.
  destruct (failover_iff_primary_attempt_throws DOH_PROVIDERS Sample.notFound 0.25%float 0
              Sample.utc (fun _ => "") "" Sample.getRequest)
    as [_ Hanswered].
  - discriminate.
  - reflexivity.
  - left. reflexivity.
  - destruct (Hanswered (upstreamFor Sample.getRequest Sample.google) (Sample.answer 404))
      as (out & Hout & _).
    + reflexivity.
    + reflexivity.
    + split; discriminate.
    + reflexivity.
Defined.

Lemma failover_returns_first_success_witness :
  (Sample.run Sample.flaky 0.25%float Sample.getRequest).1
    = Returns (fallbackResponse (Sample.answer 200)) /\
  tried (log (Sample.run Sample.flaky 0.25%float Sample.getRequest).2)
    = [Sample.cloudflare; Sample.quad9].
Proof.
  destruct (failover_returns_first_success DOH_PROVIDERS Sample.flaky 0.25%float 0
              Sample.utc (fun _ => "") "" Sample.getRequest
              Sample.google NetworkError [Sample.cloudflare] Sample.quad9
              (drop 3 DOH_PROVIDERS) (Sample.answer 200))
    as (Hout & _ & Htried & _).
  - exact dnsQuery_get.
  - exact select_google.
  - reflexivity.
  - reflexivity.
  - intros [|i] c' Hc'; [|discriminate Hc'].
    injection Hc' as <-. reflexivity.
  - reflexivity.
  - reflexivity.
  - split; [exact Hout | exact Htried].
Defined.



Lemma upstream_request_translation_witness :
  exists (up : UpstreamRequest) (calls : list UpstreamRequest),
    fetched (log (Sample.run Sample.flaky 0.25%float Sample.getRequest).2) = up :: calls /\
    translates Sample.getRequest Sample.google up /\
    (forall bytes, method Sample.getRequest = "POST" ->
       req_body Sample.getRequest = Some bytes -> up_body up = Some bytes) /\
    Forall (fun up' => exists c, c ∈ candidates DOH_PROVIDERS Sample.google /\
                                 translates Sample.getRequest c up') calls /\
    (forall c rest,
       failovers (log (Sample.run Sample.flaky 0.25%float Sample.getRequest).2) <> [] ->
       consumedByPrimary Sample.getRequest = false ->
       candidates DOH_PROVIDERS Sample.google = c :: rest ->
       exists up' calls', calls = up' :: calls' /\ translates Sample.getRequest c up').
Proof.
  exact (upstream_request_translation DOH_PROVIDERS Sample.flaky 0.25%float 0
           Sample.utc (fun _ => "") "" Sample.getRequest
           Sample.google dnsQuery_get select_google).
Defined.

(** The upstream requests of that run, and those of a POST. *)
Example upstream_requests_of_get :
  fetched (log (Sample.run Sample.flaky 0.25%float Sample.getRequest).2)
  = [ {| up_url := "https://dns.google/dns-query?dns=AAABAAABAAAAAAAAA3d3dwdleGFtcGxlA2NvbQAAAQAB";
         up_method := "GET";
         up_headers := headers_of [("accept", "application/dns-message");
                                   ("user-agent", "DoH-Proxy-Worker/1.0")];
         up_body := None; up_redirect := "follow" |};
      {| up_url := "https://cloudflare-dns.com/dns-query?dns=AAABAAABAAAAAAAAA3d3dwdleGFtcGxlA2NvbQAAAQAB";
         up_method := "GET";
         up_headers := headers_of [("accept", "application/dns-message");
                                   ("user-agent", "DoH-Proxy-Worker/1.0")];
         up_body := None; up_redirect := "follow" |};
      {| up_url := "https://dns.quad9.net/dns-query?dns=AAABAAABAAAAAAAAA3d3dwdleGFtcGxlA2NvbQAAAQAB";
         up_method := "GET";
         up_headers := headers_of [("accept", "application/dns-message");
                                   ("user-agent", "DoH-Proxy-Worker/1.0")];
         up_body := None; up_redirect := "follow" |} ].
Proof. reflexivity. Qed.

Example upstream_request_of_post :
  fetched (log (Sample.run Sample.notFound 0.25%float Sample.postRequest).2)
  = [ {| up_url := "https://dns.google/dns-query";
         up_method := "POST";
         up_headers := headers_of [("content-type", "application/dns-message");
                                   ("user-agent", "DoH-Proxy-Worker/1.0")];
         up_body := Some [Byte.x00; Byte.x01; Byte.x01; Byte.x00];
         up_redirect := "follow" |} ].
Proof. reflexivity. Qed.


Lemma get_without_dns_400_witness :
  Sample.run Sample.notFound 0.25%float Sample.noDnsRequest
  = (Returns (textResponse "Missing DNS query parameter" 400), initial).
Proof.
  refine (proj1 (get_without_dns_400 DOH_PROVIDERS Sample.notFound 0.25%float 0
                   Sample.utc (fun _ => "") "" Sample.noDnsRequest _ _ _));
    reflexivity.
Defined.

(** ** Counterexamples *)

Lemma positive_weights_huge : Forall (fun p => 0 < weight p) Sample.huge.
Proof. repeat constructor. Qed.

(** With the weights 1, 1, 1 and [2^53 + 4] the sum [2^53 + 7] rounds to
    [2^53 + 8], and [Math.random() = 1 - 2^-51] gives the draw
    [2^53 + 4], a value in [[0, sum)]. *)
Lemma draw_huge :
  (0 <=? Sample.nearOne)%float = true /\
  (Sample.nearOne <? 1)%float = true /\
  (Sample.nearOne * Select.totalWeight Sample.huge)%float = numberOf 9007199254740996 /\
  (0 <=? numberOf 9007199254740996)%float = true /\
  (numberOf 9007199254740996 <? numberOf (Select.weightSum Sample.huge))%float = true /\
  0 <= 9007199254740996 < Select.weightSum Sample.huge.
Proof. repeat split; try reflexivity; discriminate. Qed.

(** Without the bound on the sum the first interval holding the draw need
    not be selected: the draw [2^53 + 4] lies in the cumulative interval
    [[3, 2^53 + 7)] of the 4th provider and in no earlier one, but
    subtracting 1 from it rounds back to [2^53 + 4], the comparison with the
    4th weight fails, and [selectProvider] returns the 1st provider. *)
Lemma selectProvider_misses_interval :
  Forall (fun p => 0 < weight p) Sample.huge /\
  (0 <=? Sample.nearOne * Select.totalWeight Sample.huge)%float = true /\
  (Sample.nearOne * Select.totalWeight Sample.huge
     <? numberOf (Select.weightSum Sample.huge))%float = true /\
  Sample.huge !! 3%nat = Some (mkProvider "D" "https://d.example/dns-query" 9007199254740996) /\
  Select.weightBefore Sample.huge 3 = 3 /\
  (numberOf 3 <=? Sample.nearOne * Select.totalWeight Sample.huge)%float = true /\
  (Sample.nearOne * Select.totalWeight Sample.huge
     <? numberOf (3 + 9007199254740996))%float = true /\
  (Sample.nearOne * Select.totalWeight Sample.huge <? numberOf 3)%float = false /\
  Select.selectProvider Sample.huge Sample.nearOne
    = Some (mkProvider "A" "https://a.example/dns-query" 1) /\
  Select.selectProvider Sample.huge Sample.nearOne <> Sample.huge !! 3%nat.
Proof.
  split; [exact positive_weights_huge|].
  repeat split; try reflexivity. discriminate.
Qed.

(** Without the bound on the sum the final [return providers[0]] can be
    reached: for the same weights and the same draw, positive weights and a
    draw below the sum, the loop runs to its end. *)
Lemma selectProvider_final_return_reached :
  Sample.huge <> [] /\
  Forall (fun p => 0 < weight p) Sample.huge /\
  (0 <=? Sample.nearOne * Select.totalWeight Sample.huge)%float = true /\
  (Sample.nearOne * Select.totalWeight Sample.huge
     <? numberOf (Select.weightSum Sample.huge))%float = true /\
  Select.selectLoop Sample.huge (Sample.nearOne * Select.totalWeight Sample.huge)%float
    = None /\
  Select.selectProviderVia Sample.huge Sample.nearOne
    = Select.FirstProvider (Some (mkProvider "A" "https://a.example/dns-query" 1)).
Proof.
  split; [discriminate|]. split; [exact positive_weights_huge|].
  repeat split; reflexivity.
Qed.

(** Failover without a thrown call: the primary call is answered, with the
    status 999, and no call throws; the handler enters failover all the
    same, and the client receives the answer of the first candidate instead
    of the primary one. *)
Lemma failover_on_answered_primary :
  Sample.unassigned 0%nat (upstreamFor Sample.getRequest Sample.google)
    = Returns (Sample.answer 999) /\
  fetched (log (Sample.run Sample.unassigned 0.25%float Sample.getRequest).2) !! 0%nat
    = Some (upstreamFor Sample.getRequest Sample.google) /\
  failovers (log (Sample.run Sample.unassigned 0.25%float Sample.getRequest).2)
    = [Some Sample.google] /\
  (Sample.run Sample.unassigned 0.25%float Sample.getRequest).1
    = Returns (fallbackResponse (Sample.answer 200)) /\
  ~ (failovers (log (Sample.run Sample.unassigned 0.25%float Sample.getRequest).2) <> [] <->
     exists up e,
       fetched (log (Sample.run Sample.unassigned 0.25%float Sample.getRequest).2) !! 0%nat
         = Some up /\
       Sample.unassigned 0%nat up = Throws e).
Proof.
  split; [reflexivity|]. split; [reflexivity|]. split; [reflexivity|].
  split; [reflexivity|].
  intros [Hthrows _]. destruct Hthrows as (up & e & _ & Hup); [discriminate|].
  discriminate Hup.
Qed.

(** ** Outside the hypotheses *)

(** A POST with a null body has nothing to consume: failover calls the
    candidates. *)
Example post_null_body_fails_over :
  let request := {| method := "POST";
                    req_url := req_url Sample.postRequest;
                    req_headers := req_headers Sample.postRequest;
                    req_body := None |} in
  (Sample.run Sample.flaky 0.25%float request).1
    = Returns (fallbackResponse (Sample.answer 200)) /\
  up_url <$> fetched (log (Sample.run Sample.flaky 0.25%float request).2)
    = ["https://dns.google/dns-query"; "https://cloudflare-dns.com/dns-query";
       "https://dns.quad9.net/dns-query"].
Proof. split; reflexivity. Qed.

(** An empty registry selects nothing; the handler then answers 503. *)
Example empty_registry_unavailable :
  (handleRequest [] Sample.notFound 0.25%float 0 Sample.utc (fun _ => "") ""
     Sample.getRequest initial).1 = Returns unavailable.
Proof. reflexivity. Qed.

(** * Further properties *)

(** ** Weighted selection for any draw *)

Section SelectionMore.
Import Select.

Lemma selectLoop_elem (providers : list Provider) :
  forall (random : float) (p : Provider),
    selectLoop providers random = Some p -> p ∈ providers.
Proof.
  induction providers as [|p0 rest IH]; intros random p; simpl; [done|].
  destruct (_ <? _)%float.
  - intros [= <-]. by left.
  - intros Hrest. right. by eapply IH.
Qed.

(** X1. Whatever the value of [Math.random()] and whatever the weights
    (zero, negative, or a draw outside [[0, total)]), [selectProvider] on a
    non-empty sequence returns a provider, and that provider is a member of
    the sequence; on the empty sequence it returns [undefined]. *)
Theorem selectProvider_always_member (providers : list Provider) (u : float) :
  (providers = [] -> selectProvider providers u = None) /\
  (providers <> [] ->
   exists p, selectProvider providers u = Some p /\ p ∈ providers).
Proof.
  split.
  - by intros ->.
  - intros Hne. unfold selectProvider, selectProviderVia.
    destruct (selectLoop _ _) as [p|] eqn:Hloop.
    + exists p. split; [done|]. by eapply selectLoop_elem.
    + destruct providers as [|p rest]; [done|]. exists p. split; [done | by left].
Qed.

(** X3. With integer weights that are not negative and whose sum is at
    most [2^53], every draw [r = Math.random() * totalWeight] inside the
    cumulative interval of the provider at position [i] selects that
    provider, from the [return] inside the loop: the draws that select it
    fill an interval whose length is its weight. *)
Theorem selectProvider_interval_selects (providers : list Provider) (u r : float)
    (i : nat) (p : Provider) :
  Forall (fun p => 0 <= weight p) providers ->
  weightSum providers <= 2 ^ 53 ->
  r = (u * totalWeight providers)%float ->
  providers !! i = Some p ->
  (numberOf (weightBefore providers i) <=? r)%float = true ->
  (r <? numberOf (weightBefore providers i + weight p))%float = true ->
  selectProviderVia providers u = InLoop p /\
  selectProvider providers u = Some p.
Proof.
  intros Hall Hsum Hr Hi Hlo Hhi.
  destruct (weightBefore_bounds providers i p Hall Hi) as [HW0 HW].
  assert (Hp : 0 <= weight p).
  { pose proof (proj1 (Forall_forall _ _) Hall p (list_elem_of_lookup_2 _ _ _ Hi)) as Hp.
    exact Hp. }
  destruct (holds_between (numberOf (weightBefore providers i)) r
              (numberOf (weightBefore providers i + weight p))
              (weightBefore providers i * 2 ^ 1074)
              ((weightBefore providers i + weight p) * 2 ^ 1074))
    as (R & HR & HRlo & HRhi);
    [apply holds_numberOf; lia | apply holds_numberOf; lia | done | done |].
  unfold selectProvider, selectProviderVia. rewrite <- Hr.
  by rewrite (selectLoop_interval providers r R i p).
Qed.

End SelectionMore.

(** ** Failover candidates without the uniqueness of names *)

Lemma filter_sublist {A} (f : A -> bool) (l : list A) : List.filter f l `sublist_of` l.
Proof.
  induction l as [|x rest IH]; simpl; [constructor|].
  destruct (f x); by constructor.
Qed.

Lemma filter_drops_one {A} (f : A -> bool) (l : list A) (x : A) :
  x ∈ l -> f x = false -> (length (List.filter f l) < length l)%nat.
Proof.
  induction l as [|y rest IH]; intros Hin Hx; [by apply elem_of_nil in Hin|].
  pose proof (sublist_length _ _ (filter_sublist f rest)) as Hle.
  apply elem_of_cons in Hin as [<- | Hin]; simpl.
  - rewrite Hx. lia.
  - specialize (IH Hin Hx). destruct (f y); simpl; lia.
Qed.


(** ** The failover loop under any network *)

Section FailoverMore.

Variable net : nat -> UpstreamRequest -> Outcome Response.
Variable request : Request.

(** An attempt throws at the body read and logs nothing, or it logs its
    upstream call; it returns a response only for an answer that is [ok]. *)
Lemma fallbackAttempt_outcome (c : Provider) (st : State) :
  fallbackAttempt net request (req_url request) c st = (Throws TypeError, st) \/
  (log (fallbackAttempt net request (req_url request) c st).2
     = log st ++ [Fetched (upstreamFor request c)] /\
   forall out,
     (fallbackAttempt net request (req_url request) c st).1 = Returns (Some out) ->
     exists r, net (length (fetched (log st))) (upstreamFor request c) = Returns r /\
               ok r = true /\ out = fallbackResponse r).
Proof.
  unfold fallbackAttempt, upstreamFor, bind, ret, fetch, arrayBuffer.
  destruct (String.eqb (method request) "POST"); simpl.
  - destruct (req_body request) as [bytes|]; simpl.
    + destruct (bodyUsed st); simpl; [by left|].
      right. destruct (net _ _) as [r|e]; [|by split].
      destruct (ok r) eqn:Hok; [rewrite (newResponse_ok r _ _ Hok)|]; simpl;
      (split; [done|]); intros out [= <-].
      by exists r.
    + right. destruct (net _ _) as [r|e]; [|by split].
      destruct (ok r) eqn:Hok; [rewrite (newResponse_ok r _ _ Hok)|]; simpl;
      (split; [done|]); intros out [= <-].
      by exists r.
  - right. destruct (net _ _) as [r|e]; [|by split].
    destruct (ok r) eqn:Hok; [rewrite (newResponse_ok r _ _ Hok)|]; simpl;
      (split; [done|]); intros out [= <-].
    by exists r.
Qed.

(** Whatever the network answers: the loop tries a prefix of its
    candidates, calls them in that order and at most once each, and ends
    with the 503 after the whole list or with an [ok] answer. *)
Lemma fallbackLoop_trace (cands : list Provider) :
  forall st : State,
    exists (k : nat) (events : list Event),
      log (fallbackLoop net request (req_url request) cands st).2 = log st ++ events /\
      tried events = take k cands /\
      fetched events `sublist_of` (upstreamFor request <$> take k cands) /\
      failovers events = [] /\
      (((fallbackLoop net request (req_url request) cands st).1 = Returns unavailable /\
        k = length cands) \/
       exists (r : Response) (c : Provider) (n : nat),
         c ∈ cands /\ net n (upstreamFor request c) = Returns r /\ ok r = true /\
         (fallbackLoop net request (req_url request) cands st).1
           = Returns (fallbackResponse r)).
Proof.
  induction cands as [|c rest IH]; intros st.
  - exists 0%nat, []. simpl. rewrite app_nil_r. repeat split; try done. by left.
  - rewrite fallbackLoop_cons.
    destruct (fallbackAttempt_outcome c (logged st [Trying c])) as [Hthrow | [Hlog Hout]].
    + rewrite Hthrow.
      destruct (IH (logged st [Trying c])) as (k & ev & Hev & Htried & Hfetched & Hfo & Hend).
      exists (S k), (Trying c :: ev). rewrite Hev. unfold logged; cbn [log].
      rewrite <- app_assoc. split; [done|].
      change (Trying c :: ev) with ([Trying c] ++ ev).
      rewrite tried_app, fetched_app, failovers_app, Htried, Hfo.
      split; [done|]. split; [by apply sublist_cons|]. split; [done|].
      destruct Hend as [[Hend ->] | (r & c' & n & Hc' & Hnet & Hok & Hend)].
      * by left.
      * right. exists r, c', n. repeat split; try done. by right.
    + destruct (fallbackAttempt net request (req_url request) c (logged st [Trying c]))
        as [out st'] eqn:Hrun.
      cbn [fst snd] in Hlog, Hout. unfold logged in Hlog; cbn [log] in Hlog.
      assert (Hnext : exists (k : nat) (events : list Event),
                log (fallbackLoop net request (req_url request) rest st').2
                  = log st ++ events /\
                tried events = take k (c :: rest) /\
                fetched events `sublist_of` (upstreamFor request <$> take k (c :: rest)) /\
                failovers events = [] /\
                (((fallbackLoop net request (req_url request) rest st').1
                    = Returns unavailable /\ k = length (c :: rest)) \/
                 exists (r : Response) (c' : Provider) (n : nat),
                   c' ∈ c :: rest /\ net n (upstreamFor request c') = Returns r /\
                   ok r = true /\
                   (fallbackLoop net request (req_url request) rest st').1
                     = Returns (fallbackResponse r))).
      { destruct (IH st') as (k & ev & Hev & Htried & Hfetched & Hfo & Hend).
        exists (S k), (attemptEvents request c ++ ev).
        rewrite Hev, Hlog, <- !app_assoc. split; [done|].
        rewrite tried_app, fetched_app, failovers_app, Htried, Hfo.
        split; [done|]. split; [by apply sublist_skip|]. split; [done|].
        destruct Hend as [[Hend ->] | (r & c' & n & Hc' & Hnet & Hok & Hend)].
        - by left.
        - right. exists r, c', n. repeat split; try done. by right. }
      destruct out as [[response|]|e]; [|done|done].
      destruct (Hout response eq_refl) as (r & Hnet & Hok & ->).
      exists 1%nat, (attemptEvents request c). cbn [fst snd].
      rewrite Hlog, <- app_assoc. split; [done|]. split; [done|].
      split; [done|]. split; [done|].
      right. exists r, c, (length (fetched (log (logged st [Trying c])))).
      repeat split; try done. by left.
Qed.

End FailoverMore.

(** ** The handler under any network *)

Section HandlerMore.

Variable registry : list Provider.
Variable net : nat -> UpstreamRequest -> Outcome Response.
Variable u : float.
Variable now : Z.
Variable toUTCString : Z -> string.
Variable landingHtml : Request -> string.
Variable encodingHtml : string.
Variable request : Request.

Local Abbreviation handle :=
  (handleRequest registry net u now toUTCString landingHtml encodingHtml).

(** Nothing is selected only from an empty registry; the handler then goes
    through an empty failover loop. *)
Lemma handleRequest_unselected :
  dnsQuery request ->
  Select.selectProvider registry u = None ->
  registry = [] /\
  handle request initial
    = (Returns unavailable,
       {| bodyUsed := false; log := [Selected None; Failover None] |}).
Proof.
  intros Hq Hsel.
  assert (Hempty : registry = []).
  { destruct registry as [|p rest] eqn:Hreg; [done|].
    destruct (selectProvider_nonempty (p :: rest) u) as [q Hq']; [done|].
    rewrite <- Hreg in Hq'. congruence. }
  split; [done|].
  rewrite (handleRequest_dnsQuery _ _ _ _ _ _ _ _ _ Hq).
  unfold bind at 1, selectProvider, emit, ret, try_catch. rewrite Hsel. simpl.
  unfold tryFallbackProviders, bind, emit, fallbackProviders, ret.
  by rewrite Hempty.
Qed.

(** The run of the handler on a DNS query once a provider is selected,
    whatever the network answers. *)
Lemma handleRequest_trace (p : Provider) :
  dnsQuery request ->
  Select.selectProvider registry u = Some p ->
  exists (k : nat) (calls : list UpstreamRequest) (out : Response),
    (handle request initial).1 = Returns out /\
    tried (log (handle request initial).2) = take k (candidates registry p) /\
    fetched (log (handle request initial).2) = upstreamFor request p :: calls /\
    calls `sublist_of` (upstreamFor request <$> take k (candidates registry p)) /\
    ((failovers (log (handle request initial).2) = [] /\ k = 0%nat /\
      exists r, primaryAnswer (net 0%nat (upstreamFor request p)) = Some r /\
                out = primaryResponse now toUTCString r) \/
     (failovers (log (handle request initial).2) = [Some p] /\
      primaryAnswer (net 0%nat (upstreamFor request p)) = None /\
      ((out = unavailable /\ k = length (candidates registry p)) \/
       exists (r : Response) (c : Provider) (n : nat),
         c ∈ candidates registry p /\ net n (upstreamFor request c) = Returns r /\
         ok r = true /\ out = fallbackResponse r))).
Proof.
  intros Hq Hsel.
  rewrite (handleRequest_run registry net u now toUTCString landingHtml encodingHtml
             request p Hq Hsel). cbv zeta.
  destruct (primaryAnswer (net 0%nat (upstreamFor request p))) as [r|] eqn:Hnet.
  - exists 0%nat, [], (primaryResponse now toUTCString r). cbn [fst snd log].
    repeat split; try done. left. repeat split. by exists r.
  - destruct (fallbackLoop_trace net request (candidates registry p)
                (logged {| bodyUsed := consumedByPrimary request;
                           log := [Selected (Some p); Fetched (upstreamFor request p)] |}
                        [Failover (Some p)]))
      as (k & ev & Hev & Htried & Hfetched & Hfo & Hend).
    rewrite Hev. unfold logged; cbn [log].
    rewrite !tried_app, !fetched_app, !failovers_app, Htried, Hfo.
    destruct Hend as [[Hend ->] | (r & c & n & Hc & Hn & Hok & Hend)].
    + exists (length (candidates registry p)), (fetched ev), unavailable.
      repeat split; try done. right. repeat split. by left.
    + exists k, (fetched ev), (fallbackResponse r).
      repeat split; try done. right. repeat split.
      right. by exists r, c, n.
Qed.

(** X6. Whatever the registry, the network, the random value and the
    request, the handler returns a response: no exception of an upstream
    call, of a body read or of the selection escapes it. *)
Theorem handleRequest_never_throws :
  exists out, (handle request initial).1 = Returns out.
Proof.
  destruct (decide (dnsQuery request)) as [Hq|Hno].
  - destruct (Select.selectProvider registry u) as [p|] eqn:Hsel.
    + destruct (handleRequest_trace p Hq Hsel) as (k & calls & out & Hout & _).
      by exists out.
    + destruct (handleRequest_unselected Hq Hsel) as [_ ->]. by exists unavailable.
  - destruct (handleRequest_answered registry net u now toUTCString landingHtml
                encodingHtml request initial Hno) as [response ->].
    by exists response.
Qed.


(** X8. Whatever the network answers, the candidates tried are a prefix of
    the candidate list, the upstream calls after the primary one go to tried
    candidates in that order and at most once each, and one inbound request
    causes at most as many upstream calls as the registry has providers. *)
Theorem upstream_calls_ordered_bounded (p : Provider) :
  dnsQuery request ->
  Select.selectProvider registry u = Some p ->
  exists (k : nat) (calls : list UpstreamRequest),
    tried (log (handle request initial).2) = take k (candidates registry p) /\
    fetched (log (handle request initial).2) = upstreamFor request p :: calls /\
    calls `sublist_of` (upstreamFor request <$> take k (candidates registry p)) /\
    (length (fetched (log (handle request initial).2)) <= length registry)%nat.
Proof.
  intros Hq Hsel.
  destruct (handleRequest_trace p Hq Hsel)
    as (k & calls & out & _ & Htried & Hfetched & Hsub & _).
  exists k, calls. repeat split; try done.
  rewrite Hfetched. cbn [length].
  apply sublist_length in Hsub. rewrite length_fmap, length_take in Hsub.
  pose proof (filter_drops_one (fun q => negb (String.eqb (name q) (name p))) registry p
                (selectProvider_elem registry u p Hsel)) as Hdrop.
  cbv beta in Hdrop. rewrite String.eqb_refl in Hdrop. specialize (Hdrop eq_refl).
  unfold candidates in Hsub. lia.
Qed.

(** X9. Whatever the network answers, no upstream call after the primary
    one goes to a provider carrying the name of the provider that failed. *)
Theorem failed_provider_not_called_again (p : Provider) :
  dnsQuery request ->
  Select.selectProvider registry u = Some p ->
  Forall (fun up => exists c, c ∈ registry /\ name c <> name p /\
                              up = upstreamFor request c)
         (tail (fetched (log (handle request initial).2))).
Proof.
  intros Hq Hsel.
  destruct (handleRequest_trace p Hq Hsel)
    as (k & calls & out & _ & _ & Hfetched & Hsub & _).
  rewrite Hfetched. cbn [tail].
  apply Forall_forall. intros up Hup.
  apply (sublist_subseteq _ _ Hsub) in Hup.
  apply list_elem_of_fmap in Hup as (c & -> & Hc).
  apply subseteq_take in Hc.
  unfold candidates in Hc.
  rewrite list_elem_of_In, filter_In, negb_true_iff, String.eqb_neq in Hc.
  exists c. rewrite list_elem_of_In. tauto.
Qed.

(** X10. A POST with a body causes exactly one upstream call, whatever the
    network answers: the body is sent upstream once and never again. *)
Theorem post_body_sent_once (p : Provider) (bytes : list Byte.byte) :
  pathname (req_url request) = "/dns-query" ->
  method request = "POST" ->
  req_body request = Some bytes ->
  Select.selectProvider registry u = Some p ->
  fetched (log (handle request initial).2) = [upstreamFor request p] /\
  up_body (upstreamFor request p) = Some bytes.
Proof.
  intros Hpath Hpost Hbody Hsel.
  assert (Hq : dnsQuery request) by (split; [done | by right]).
  assert (Hcons : consumedByPrimary request = true).
  { unfold consumedByPrimary. rewrite Hpost, Hbody. by rewrite bool_decide_true by eauto. }
  split; [|unfold upstreamFor; by rewrite Hpost, Hbody].
  rewrite (handleRequest_run registry net u now toUTCString landingHtml encodingHtml
             request p Hq Hsel). cbv zeta.
  destruct (primaryAnswer (net 0%nat _)) as [r|]; [done|].
  rewrite fallbackLoop_reread by (done || (unfold logged; simpl; by rewrite ?Hcons)).
  unfold logged; cbn [log snd]. by rewrite !fetched_app, fetched_Trying.
Qed.

(** X11. Over a non-empty registry, an upstream is called exactly for the
    DNS queries (a GET with a [dns] parameter or a POST, to [/dns-query]);
    every other request is answered without selecting a provider and
    without any upstream call. *)
Theorem upstream_called_iff_dnsQuery :
  registry <> [] ->
  (fetched (log (handle request initial).2) <> [] <-> dnsQuery request) /\
  (selections (log (handle request initial).2) <> [] <-> dnsQuery request).
Proof.
  intros Hne.
  destruct (decide (dnsQuery request)) as [Hq|Hno].
  - destruct (selectProvider_nonempty registry u Hne) as [p Hsel].
    destruct (handleRequest_trace p Hq Hsel) as (k & calls & out & _ & _ & Hfetched & _).
    rewrite Hfetched. split; [done|]. split; [done|].
    intros _.
    rewrite (handleRequest_run registry net u now toUTCString landingHtml encodingHtml
               request p Hq Hsel). cbv zeta.
    destruct (primaryAnswer (net 0%nat _)) as [r|]; [done|].
    destruct (fallbackLoop_log net request (candidates registry p)
                (logged {| bodyUsed := consumedByPrimary request;
                           log := [Selected (Some p); Fetched (upstreamFor request p)] |}
                        [Failover (Some p)])) as (ev & -> & _).
    by unfold logged.
  - destruct (handleRequest_answered registry net u now toUTCString landingHtml
                encodingHtml request initial Hno) as [response ->].
    by split.
Qed.

(** X12. Over an empty registry every DNS query is answered 503 without
    any upstream call. *)
Theorem empty_registry_503 :
  registry = [] ->
  dnsQuery request ->
  (handle request initial).1 = Returns unavailable /\
  status unavailable = 503 /\
  fetched (log (handle request initial).2) = [].
Proof.
  intros Hempty Hq.
  destruct (handleRequest_unselected Hq) as [_ ->]; [by rewrite Hempty|done].
Qed.

End HandlerMore.

(** ** Requests answered without an upstream *)

Section Dispatch.

Variable registry : list Provider.
Variable net : nat -> UpstreamRequest -> Outcome Response.
Variable u : float.
Variable now : Z.
Variable toUTCString : Z -> string.
Variable landingHtml : Request -> string.
Variable encodingHtml : string.
Variable request : Request.

Local Abbreviation handle :=
  (handleRequest registry net u now toUTCString landingHtml encodingHtml).

Lemma eqb_other (a b : string) : a <> b -> String.eqb a b = false.
Proof. apply String.eqb_neq. Qed.

(** X13. The two documentation paths are served before the method is
    looked at: whatever the method (OPTIONS and POST included), [/] and
    [/dns-encoding] are answered 200 with an HTML page cacheable for an
    hour, and nothing else happens. *)
Theorem pages_served_for_any_method (st : State) :
  pathname (req_url request) = "/" \/ pathname (req_url request) = "/dns-encoding" ->
  exists html,
    handle request st = (Returns (htmlResponse html), st) /\
    html = (if String.eqb (pathname (req_url request)) "/"
            then landingHtml request else encodingHtml) /\
    status (htmlResponse html) = 200 /\
    headers_get "Content-Type" (resp_headers (htmlResponse html))
      = Some "text/html; charset=utf-8" /\
    headers_get "Cache-Control" (resp_headers (htmlResponse html))
      = Some "public, max-age=3600".
Proof.
  intros [Hpath|Hpath]; unfold handleRequest; rewrite Hpath; simpl.
  - by exists (landingHtml request).
  - by exists encodingHtml.
Qed.

(** X14. An OPTIONS request to any path other than the two documentation
    paths, [/dns-query] or not, is answered as a CORS preflight: 204 with a
    null body and the four CORS headers, before the path is validated. *)
Theorem options_preflight_any_path (st : State) :
  method request = "OPTIONS" ->
  pathname (req_url request) <> "/" ->
  pathname (req_url request) <> "/dns-encoding" ->
  handle request st = (Returns handleCORS, st) /\
  status handleCORS = 204 /\
  resp_body handleCORS = BodyNull /\
  headers_get "Access-Control-Allow-Origin" (resp_headers handleCORS) = Some "*" /\
  headers_get "Access-Control-Allow-Methods" (resp_headers handleCORS)
    = Some "GET, POST, OPTIONS" /\
  headers_get "Access-Control-Allow-Headers" (resp_headers handleCORS)
    = Some "Content-Type, Accept" /\
  headers_get "Access-Control-Max-Age" (resp_headers handleCORS) = Some "86400".
Proof.
  intros Hmethod Hroot Hdoc. split; [|by repeat split].
  unfold handleRequest. by rewrite (eqb_other _ _ Hroot), (eqb_other _ _ Hdoc), Hmethod.
Qed.

(** X15. A request that is not OPTIONS to a path other than [/],
    [/dns-encoding] and [/dns-query] is answered 400 [Invalid endpoint],
    whatever its method and query string. *)
Theorem invalid_endpoint_400 (st : State) :
  pathname (req_url request) <> "/" ->
  pathname (req_url request) <> "/dns-encoding" ->
  pathname (req_url request) <> "/dns-query" ->
  method request <> "OPTIONS" ->
  handle request st
    = (Returns (textResponse "Invalid endpoint. Use /dns-query" 400), st) /\
  status (textResponse "Invalid endpoint. Use /dns-query" 400) = 400.
Proof.
  intros Hroot Hdoc Hquery Hmethod. split; [|done].
  unfold handleRequest.
  by rewrite (eqb_other _ _ Hroot), (eqb_other _ _ Hdoc), (eqb_other _ _ Hmethod),
    (eqb_other _ _ Hquery).
Qed.

(** X16. A request to [/dns-query] whose method is none of GET, POST and
    OPTIONS (the comparison is exact, so a lower-case [get] counts) is
    answered 405, with or without a [dns] parameter, and nothing else
    happens. *)
Theorem method_not_allowed_405 (st : State) :
  pathname (req_url request) = "/dns-query" ->
  method request <> "GET" ->
  method request <> "POST" ->
  method request <> "OPTIONS" ->
  handle request st
    = (Returns (textResponse "Method not allowed. Use GET or POST." 405), st) /\
  status (textResponse "Method not allowed. Use GET or POST." 405) = 405.
Proof.
  intros Hpath Hget Hpost Hoptions. split; [|done].
  unfold handleRequest.
  by rewrite Hpath, (eqb_other _ _ Hget), (eqb_other _ _ Hpost),
    (eqb_other _ _ Hoptions).
Qed.

(** The first read of an unused body succeeds: the attempt sends the body
    upstream and leaves it used. *)
Lemma fallbackAttempt_first_read (c : Provider) (bytes : list Byte.byte) (st : State) :
  method request = "POST" ->
  req_body request = Some bytes ->
  bodyUsed st = false ->
  fallbackAttempt net request (req_url request) c st =
    let st' := {| bodyUsed := true;
                  log := log st ++ [Fetched (upstreamFor request c)] |} in
    match net (length (fetched (log st))) (upstreamFor request c) with
    | Returns r => (Returns (if ok r then Some (fallbackResponse r) else None), st')
    | Throws e => (Throws e, st')
    end.
Proof.
  intros Hpost Hbody Hfresh.
  unfold fallbackAttempt, upstreamFor, bind, ret, fetch, arrayBuffer.
  rewrite Hpost. simpl. rewrite Hbody, Hfresh. simpl.
  destruct (net _ _) as [r|e]; [|done].
  destruct (ok r) eqn:Hok; [|done]. by rewrite (newResponse_ok r _ _ Hok).
Qed.

(** X17. [tryFallbackProviders] on a POST whose body is still unread: the
    first candidate receives the body and its answer alone decides the
    result, because every later attempt throws at the re-read. A 2xx answer
    is returned; anything else gives the 503 after a single upstream call. *)
Theorem tryFallbackProviders_unread_body (failed c : Provider) (rest : list Provider)
    (bytes : list Byte.byte) (st : State) :
  method request = "POST" ->
  req_body request = Some bytes ->
  bodyUsed st = false ->
  candidates registry failed = c :: rest ->
  (tryFallbackProviders registry net request (req_url request) (Some failed) st).1
    = Returns (match net (length (fetched (log st))) (upstreamFor request c) with
               | Returns r => if ok r then fallbackResponse r else unavailable
               | Throws _ => unavailable
               end) /\
  fetched (log (tryFallbackProviders registry net request (req_url request)
                  (Some failed) st).2)
    = fetched (log st) ++ [upstreamFor request c] /\
  up_body (upstreamFor request c) = Some bytes.
Proof.
  intros Hpost Hbody Hfresh Hcands.
  assert (Hcons : consumedByPrimary request = true).
  { unfold consumedByPrimary. rewrite Hpost, Hbody. by rewrite bool_decide_true by eauto. }
  assert (Hrun : tryFallbackProviders registry net request (req_url request) (Some failed) st
                 = fallbackLoop net request (req_url request) (c :: rest)
                     (logged st [Failover (Some failed)])).
  { unfold tryFallbackProviders, bind, emit, fallbackProviders, ret.
    fold (candidates registry failed). rewrite Hcands.
    destruct registry; [discriminate Hcands | done]. }
  rewrite Hrun, fallbackLoop_cons.
  rewrite (fallbackAttempt_first_read c bytes) by done. cbv zeta.
  assert (Hn : length (fetched (log (logged (logged st [Failover (Some failed)]) [Trying c])))
               = length (fetched (log st))).
  { unfold logged; cbn [log]. rewrite !fetched_app. simpl. by rewrite !app_nil_r. }
  rewrite Hn.
  split; [|split; [|unfold upstreamFor; by rewrite Hpost, Hbody]].
  - destruct (net _ _) as [r|e]; [destruct (ok r)|]; [done| |];
      by rewrite fallbackLoop_reread by done.
  - destruct (net _ _) as [r|e]; [destruct (ok r)|];
      rewrite ?fallbackLoop_reread by done;
      unfold logged; cbn [log snd];
      rewrite !fetched_app, ?fetched_Trying; simpl; by rewrite !app_nil_r.
Qed.

End Dispatch.

(** ** Failover reaches a healthy provider *)

Section Healthy.

Variable registry : list Provider.
Variable net : nat -> UpstreamRequest -> Outcome Response.
Variable u : float.
Variable now : Z.
Variable toUTCString : Z -> string.
Variable landingHtml : Request -> string.
Variable encodingHtml : string.
Variable request : Request.

Local Abbreviation handle :=
  (handleRequest registry net u now toUTCString landingHtml encodingHtml).

Lemma succeeds_unsuccessful (answer : Outcome Response) :
  succeeds answer = false -> unsuccessful answer.
Proof. destruct answer as [r|e]; simpl; [done | by intros _]. Qed.

(** X18. When the answers of the network do not change while the request
    is handled, the body can be read again (a GET, or a POST with a null
    body), the primary call throws and some candidate answers 2xx, the
    handler returns the answer of the first such candidate in registry
    order: it ends in the 503 only when no candidate is healthy. *)
Theorem failover_reaches_healthy_candidate
    (answer : UpstreamRequest -> Outcome Response) (p : Provider) (e : Exn) (c : Provider) :
  (forall n up, net n up = answer up) ->
  dnsQuery request ->
  consumedByPrimary request = false ->
  Select.selectProvider registry u = Some p ->
  answer (upstreamFor request p) = Throws e ->
  c ∈ candidates registry p ->
  succeeds (answer (upstreamFor request c)) = true ->
  exists (i : nat) (c' : Provider) (r : Response),
    candidates registry p !! i = Some c' /\
    answer (upstreamFor request c') = Returns r /\
    ok r = true /\
    (forall j cj, (j < i)%nat -> candidates registry p !! j = Some cj ->
       succeeds (answer (upstreamFor request cj)) = false) /\
    (handle request initial).1 = Returns (fallbackResponse r) /\
    200 <= status (fallbackResponse r) <= 299 /\
    tried (log (handle request initial).2) = take (S i) (candidates registry p).
Proof.
  intros Hnet Hq Hcons Hsel Hprimary Hc Hok.
  destruct (list_find_elem_of
              (fun c' => succeeds (answer (upstreamFor request c')) = true)
              (candidates registry p) c Hc Hok) as [[i c'] Hfind].
  apply list_find_Some in Hfind as (Hi & Hc' & Hbefore).
  destruct (answer (upstreamFor request c')) as [r|] eqn:Hr; [|discriminate Hc'].
  simpl in Hc'.
  pose proof (take_drop_middle _ _ _ Hi) as Hsplit.
  assert (Hlen : length (take i (candidates registry p)) = i).
  { apply length_take_le. apply lookup_lt_Some in Hi. lia. }
  exists i, c', r. split; [done|]. split; [done|]. split; [done|]. split.
  { intros j cj Hj Hcj. apply not_true_is_false. by apply (Hbefore j cj). }
  rewrite (failover_first_success registry net u now toUTCString landingHtml encodingHtml
             request p e (take i (candidates registry p)) c'
             (drop (S i) (candidates registry p)) r).
  - cbn [fst snd]. split; [done|]. split.
    { unfold ok in Hc'. cbn [fallbackResponse status]. lia. }
    unfold afterPrimary, logged; cbn [log].
    rewrite !tried_app, tried_attempts. simpl.
    by rewrite (take_S_r _ _ _ Hi).
  - done.
  - done.
  - by rewrite Hnet.
  - by rewrite Hsplit.
  - intros j cj Hcj. unfold candidateAnswer. rewrite Hcons, Hnet.
    apply succeeds_unsuccessful.
    assert (Hj : (j < i)%nat).
    { apply lookup_lt_Some in Hcj. by rewrite Hlen in Hcj. }
    rewrite lookup_take_lt in Hcj by done.
    apply not_true_is_false. by apply (Hbefore j cj).
  - unfold candidateAnswer. by rewrite Hcons, Hnet.
  - done.
Qed.

End Healthy.

(** ** The further properties on sample requests *)

Lemma nonneg_weights_abcd : Forall (fun p => 0 <= weight p) Sample.abcd.
Proof. repeat (constructor; [discriminate|]). constructor. Defined.

Lemma nonneg_weights_registry : Forall (fun p => 0 <= weight p) DOH_PROVIDERS.
Proof. repeat (constructor; [discriminate|]). constructor. Defined.

Lemma selectProvider_interval_selects_witness :
  Select.selectProviderVia Sample.abcd 0.5%float
  = Select.InLoop (mkProvider "B" "https://b.example/dns-query" 15).
Proof.
  refine (proj1 (selectProvider_interval_selects Sample.abcd 0.5%float 30%float 1%nat
                   (mkProvider "B" "https://b.example/dns-query" 15)
                   nonneg_weights_abcd weightSum_abcd _ _ _ _));
    reflexivity.
Defined.


Lemma upstream_calls_ordered_bounded_witness :
  exists (k : nat) (calls : list UpstreamRequest),
    tried (log (Sample.run Sample.flaky 0.25%float Sample.getRequest).2)
      = take k (candidates DOH_PROVIDERS Sample.google) /\
    fetched (log (Sample.run Sample.flaky 0.25%float Sample.getRequest).2)
      = upstreamFor Sample.getRequest Sample.google :: calls /\
    calls `sublist_of`
      (upstreamFor Sample.getRequest <$> take k (candidates DOH_PROVIDERS Sample.google)) /\
    (length (fetched (log (Sample.run Sample.flaky 0.25%float Sample.getRequest).2))
     <= length DOH_PROVIDERS)%nat.
Proof.
  exact (upstream_calls_ordered_bounded DOH_PROVIDERS Sample.flaky 0.25%float 0
           Sample.utc (fun _ => "") "" Sample.getRequest Sample.google
           dnsQuery_get select_google).
Defined.

Lemma failed_provider_not_called_again_witness :
  Forall (fun up => exists c, c ∈ DOH_PROVIDERS /\ name c <> "Google" /\
                              up = upstreamFor Sample.getRequest c)
         (tail (fetched (log (Sample.run Sample.down 0.25%float Sample.getRequest).2))).
Proof.
  exact (failed_provider_not_called_again DOH_PROVIDERS Sample.down 0.25%float 0
           Sample.utc (fun _ => "") "" Sample.getRequest Sample.google
           dnsQuery_get select_google).
Defined.

Lemma post_body_sent_once_witness :
  fetched (log (Sample.run Sample.notFound 0.25%float Sample.postRequest).2)
    = [upstreamFor Sample.postRequest Sample.google] /\
  up_body (upstreamFor Sample.postRequest Sample.google)
    = Some [Byte.x00; Byte.x01; Byte.x01; Byte.x00].
Proof.
  refine (post_body_sent_once DOH_PROVIDERS Sample.notFound 0.25%float 0
            Sample.utc (fun _ => "") "" Sample.postRequest Sample.google
            [Byte.x00; Byte.x01; Byte.x01; Byte.x00] _ _ _ select_google);
    reflexivity.
Defined.

Lemma upstream_called_iff_dnsQuery_witness :
  (fetched (log (Sample.run Sample.notFound 0.25%float Sample.deleteRequest).2) <> []
   <-> dnsQuery Sample.deleteRequest) /\
  (selections (log (Sample.run Sample.notFound 0.25%float Sample.deleteRequest).2) <> []
   <-> dnsQuery Sample.deleteRequest).
Proof.
  refine (upstream_called_iff_dnsQuery DOH_PROVIDERS Sample.notFound 0.25%float 0
            Sample.utc (fun _ => "") "" Sample.deleteRequest _).
  discriminate.
Defined.

Lemma empty_registry_503_witness :
  (handleRequest [] Sample.notFound 0.25%float 0 Sample.utc (fun _ => "") ""
     Sample.getRequest initial).1 = Returns unavailable.
Proof.
  refine (proj1 (empty_registry_503 [] Sample.notFound 0.25%float 0
                   Sample.utc (fun _ => "") "" Sample.getRequest eq_refl dnsQuery_get)).
Defined.

Lemma pages_served_for_any_method_witness :
  exists html,
    Sample.run Sample.notFound 0.25%float Sample.rootOptions
      = (Returns (htmlResponse html), initial) /\
    html = "" /\
    status (htmlResponse html) = 200 /\
    headers_get "Content-Type" (resp_headers (htmlResponse html))
      = Some "text/html; charset=utf-8" /\
    headers_get "Cache-Control" (resp_headers (htmlResponse html))
      = Some "public, max-age=3600".
Proof.
  refine (pages_served_for_any_method DOH_PROVIDERS Sample.notFound 0.25%float 0
            Sample.utc (fun _ => "") "" Sample.rootOptions initial _).
  left. reflexivity.
Defined.

Lemma options_preflight_any_path_witness :
  Sample.run Sample.notFound 0.25%float Sample.elsewhereOptions = (Returns handleCORS, initial).
Proof.
  refine (proj1 (options_preflight_any_path DOH_PROVIDERS Sample.notFound 0.25%float 0
                   Sample.utc (fun _ => "") "" Sample.elsewhereOptions initial _ _ _)).
  - reflexivity.
  - discriminate.
  - discriminate.
Defined.

Lemma invalid_endpoint_400_witness :
  Sample.run Sample.notFound 0.25%float Sample.elsewhereGet
  = (Returns (textResponse "Invalid endpoint. Use /dns-query" 400), initial).
Proof.
  refine (proj1 (invalid_endpoint_400 DOH_PROVIDERS Sample.notFound 0.25%float 0
                   Sample.utc (fun _ => "") "" Sample.elsewhereGet initial _ _ _ _));
    discriminate.
Defined.

Lemma method_not_allowed_405_witness :
  Sample.run Sample.notFound 0.25%float Sample.deleteRequest
  = (Returns (textResponse "Method not allowed. Use GET or POST." 405), initial).
Proof.
  refine (proj1 (method_not_allowed_405 DOH_PROVIDERS Sample.notFound 0.25%float 0
                   Sample.utc (fun _ => "") "" Sample.deleteRequest initial _ _ _ _)).
  - reflexivity.
  - discriminate.
  - discriminate.
  - discriminate.
Defined.

Lemma tryFallbackProviders_unread_body_witness :
  (tryFallbackProviders DOH_PROVIDERS Sample.notFound Sample.postRequest
     (req_url Sample.postRequest) (Some Sample.google) initial).1
    = Returns unavailable /\
  fetched (log (tryFallbackProviders DOH_PROVIDERS Sample.notFound Sample.postRequest
                  (req_url Sample.postRequest) (Some Sample.google) initial).2)
    = [upstreamFor Sample.postRequest Sample.cloudflare].
Proof.
  destruct (tryFallbackProviders_unread_body DOH_PROVIDERS Sample.notFound
              Sample.postRequest Sample.google Sample.cloudflare
              (drop 2 DOH_PROVIDERS) [Byte.x00; Byte.x01; Byte.x01; Byte.x00] initial)
    as (Hout & Hfetched & _).
  - reflexivity.
  - reflexivity.
  - reflexivity.
  - reflexivity.
  - split; [exact Hout | exact Hfetched].
Defined.

Lemma failover_reaches_healthy_candidate_witness :
  exists (i : nat) (c' : Provider) (r : Response),
    candidates DOH_PROVIDERS Sample.google !! i = Some c' /\
    Sample.quad9Only (upstreamFor Sample.getRequest c') = Returns r /\
    ok r = true /\
    (forall j cj, (j < i)%nat -> candidates DOH_PROVIDERS Sample.google !! j = Some cj ->
       succeeds (Sample.quad9Only (upstreamFor Sample.getRequest cj)) = false) /\
    (Sample.run (fun _ => Sample.quad9Only) 0.25%float Sample.getRequest).1
      = Returns (fallbackResponse r) /\
    200 <= status (fallbackResponse r) <= 299 /\
    tried (log (Sample.run (fun _ => Sample.quad9Only) 0.25%float Sample.getRequest).2)
      = take (S i) (candidates DOH_PROVIDERS Sample.google).
Proof.
  refine (failover_reaches_healthy_candidate DOH_PROVIDERS (fun _ => Sample.quad9Only)
            0.25%float 0 Sample.utc (fun _ => "") "" Sample.getRequest
            Sample.quad9Only Sample.google NetworkError Sample.quad9
            _ dnsQuery_get _ select_google _ _ _).
  - reflexivity.
  - reflexivity.
  - reflexivity.
  - apply list_elem_of_lookup_2 with 1%nat. reflexivity.
  - reflexivity.
Defined.
